(** * crm/schema.py: validators and mutations of the CRM GraphQL API

    A shallow embedding of the validation library and of the customer and
    order mutations of [crm/schema.py] ([CreateCustomer],
    [BulkCreateCustomers], [CreateOrder]), over an explicit model of the
    entity store, together with the properties the specification states
    about them.

    Conventions.
    - Python [str] values are modelled as [string] (sequences of 8-bit
      characters); case folding and whitespace are the ASCII ones.
    - Python exceptions are values of [exn]; a handler runs in the monad
      [M], which threads the database connection: the store as the open
      transaction sees it, and the two flags Django keeps about the
      enclosing atomic block.
    - Every write to the store may fail: the section variable
      [storage_fault] decides, for each write and store, whether the
      statement raises a database error, and with which message. *)

From Stdlib Require Import ZArith List String Ascii Bool Lia.
From Stdlib Require Import Permutation Sorted DecimalString.
Import ListNotations.

Local Open Scope string_scope.
Local Open Scope list_scope.
Local Open Scope Z_scope.

(* ================================================================== *)
(** ** Python strings *)

Module PyStr.

Definition code (c : ascii) : N := N_of_ascii c.

(** [str.isspace] on the ASCII range: TAB, LF, VT, FF, CR, the four
    separators FS, GS, RS, US, and the space. *)
Definition is_space (c : ascii) : bool :=
  let n := code c in
  ((9 <=? n) && (n <=? 13) || (28 <=? n) && (n <=? 32))%N.

Definition is_digit (c : ascii) : bool :=
  let n := code c in ((48 <=? n) && (n <=? 57))%N.

Definition digit_val (c : ascii) : Z := Z.of_N (code c) - 48.

Definition lower_char (c : ascii) : ascii :=
  let n := code c in
  if ((65 <=? n) && (n <=? 90))%N then ascii_of_N (n + 32) else c.

Fixpoint lower (s : string) : string :=
  match s with
  | EmptyString => EmptyString
  | String c r => String (lower_char c) (lower r)
  end.

Fixpoint lstrip (s : string) : string :=
  match s with
  | EmptyString => EmptyString
  | String c r => if is_space c then lstrip r else s
  end.

Fixpoint rstrip (s : string) : string :=
  match s with
  | EmptyString => EmptyString
  | String c r =>
      match rstrip r with
      | EmptyString => if is_space c then EmptyString else String c EmptyString
      | r' => String c r'
      end
  end.

(** [s.strip()] *)
Definition strip (s : string) : string := rstrip (lstrip s).

(** Truth value of a string: [bool(s)]. *)
Definition truthy (s : string) : bool :=
  match s with EmptyString => false | _ => true end.

(** [x or ""] for an optional string. *)
Definition or_empty (o : option string) : string :=
  match o with Some s => s | None => "" end.

(** The comparison behind Django's [__iexact] lookup. *)
Definition iexact (a b : string) : bool := String.eqb (lower a) (lower b).

Definition chars (s : string) : list ascii := list_ascii_of_string s.

(** [int(s)] for a string: surrounding whitespace is dropped, a sign is
    optional, and the digits may be grouped by single underscores.  The
    interpreter's limit on the number of digits is left out. *)
Fixpoint int_digits (acc : Z) (after_digit : bool) (cs : list ascii)
  : option Z :=
  match cs with
  | [] => if after_digit then Some acc else None
  | c :: r =>
      if is_digit c then int_digits (10 * acc + digit_val c) true r
      else if (Ascii.eqb c "_" && after_digit)%bool
           then int_digits acc false r
           else None
  end.

Definition int (s : string) : option Z :=
  match chars (strip s) with
  | "-"%char :: r => option_map Z.opp (int_digits 0 false r)
  | "+"%char :: r => int_digits 0 false r
  | cs => int_digits 0 false cs
  end.

(** [repr] of an [int] and of a list of them. *)
Definition repr_int (z : Z) : string := NilZero.string_of_int (Z.to_int z).

Fixpoint join_repr (l : list Z) : string :=
  match l with
  | [] => ""
  | [z] => repr_int z
  | z :: r => (repr_int z ++ ", " ++ join_repr r)%string
  end.

Definition repr_list (l : list Z) : string :=
  ("[" ++ join_repr l ++ "]")%string.

End PyStr.

(* ================================================================== *)
(** ** Python's [decimal.Decimal] *)

(** A finite decimal number [coef * 10 ^ exp]. *)
Record Decimal : Type := mkDecimal { coef : Z; exp : Z }.

(** The values the [Decimal] constructor can return for a string. *)
Inductive PyDecimal : Type :=
| Finite (d : Decimal)
| Infinity (negative : bool)
| NaN.

Module Dec.

(** Precision of the default arithmetic context. *)
Definition prec : Z := 28.

Definition eqb (a b : Decimal) : bool :=
  (coef a =? coef b) && (exp a =? exp b).

(** Number of digits by which [n >= 0] exceeds the context precision. *)
Fixpoint excess (fuel : nat) (n : Z) : Z :=
  match fuel with
  | O => 0
  | S f => if n <? 10 ^ prec then 0 else 1 + excess f (n / 10)
  end.

(** Rounding of [c * 10 ^ e] to the context precision, half to even. *)
Definition round (c e : Z) : Decimal :=
  let n := Z.abs c in
  if n <? 10 ^ prec then mkDecimal c e
  else
    let k := excess (S (Z.to_nat (Z.log2 n))) n in
    let p := 10 ^ k in
    let q := n / p in
    let r := n mod p in
    let q' := if (p <? 2 * r) || ((2 * r =? p) && Z.odd q) then q + 1 else q in
    if q' =? 10 ^ prec
    then mkDecimal (Z.sgn c * 10 ^ (prec - 1)) (e + k + 1)
    else mkDecimal (Z.sgn c * q') (e + k).

(** [a + b] in the default context: the operands are aligned on the
    smaller exponent, added exactly, and the sum is rounded. *)
Definition add (a b : Decimal) : Decimal :=
  let e := Z.min (exp a) (exp b) in
  round (coef a * 10 ^ (exp a - e) + coef b * 10 ^ (exp b - e)) e.

(** [Decimal("0.00")] *)
Definition zero_00 : Decimal := mkDecimal 0 (-2).

(** [sum(prices, Decimal("0.00"))] *)
Definition sum (prices : list Decimal) : Decimal :=
  fold_left add prices zero_00.

(** The number of units of [10 ^ s] in [d]; exact when [s <= exp d]. *)
Definition units_at (s : Z) (d : Decimal) : Z := coef d * 10 ^ (exp d - s).

(** The smallest exponent met by the summation. *)
Definition scale (prices : list Decimal) : Z :=
  fold_left Z.min (map exp prices) (exp zero_00).

Definition total_units (s : Z) (prices : list Decimal) : Z :=
  fold_right Z.add 0 (map (units_at s) prices).

Definition total_abs_units (s : Z) (prices : list Decimal) : Z :=
  fold_right Z.add 0 (map (fun d => Z.abs (units_at s d)) prices).

End Dec.


(** *** [Decimal(s)] for a string

    The grammar is the one of the constructor: the text is stripped,
    underscores are dropped, a sign is optional, and what follows is
    either a numeral [digits[.digits]][e[sign]digits]] with at least one
    digit in its mantissa, or one of [inf], [infinity], [nan], [snan]
    (letters in any case, the last two with optional diagnostic digits).
    The constructor is exact: it never rounds. *)

Module DecParse.
Import PyStr.

Fixpoint span_digits (cs : list ascii) : list ascii * list ascii :=
  match cs with
  | c :: r =>
      if is_digit c then let (ds, rest) := span_digits r in (c :: ds, rest)
      else ([], cs)
  | [] => ([], [])
  end.

Definition digits_value (ds : list ascii) : Z :=
  fold_left (fun acc c => 10 * acc + digit_val c) ds 0.

Definition is_e (c : ascii) : bool := Ascii.eqb (lower_char c) "e".

(** The exponent part: empty, or [e], an optional sign and digits up to the
    end of the text. *)
Definition exponent (cs : list ascii) : option Z :=
  match cs with
  | [] => Some 0
  | c :: r =>
      if is_e c then
        let '(neg, ds) :=
          match r with
          | "-"%char :: r' => (true, r')
          | "+"%char :: r' => (false, r')
          | _ => (false, r)
          end in
        match span_digits ds with
        | ((_ :: _) as e, []) =>
            Some (if neg then - digits_value e else digits_value e)
        | _ => None
        end
      else None
  end.

Definition numeral (neg : bool) (cs : list ascii) : option Decimal :=
  let (ip, r1) := span_digits cs in
  let (fp, r2) :=
    match r1 with
    | "."%char :: r => span_digits r
    | _ => ([], r1)
    end in
  match ip ++ fp with
  | [] => None
  | m =>
      match exponent r2 with
      | Some e =>
          let c := digits_value m in
          Some (mkDecimal (if neg then - c else c) (e - Z.of_nat (List.length fp)))
      | None => None
      end
  end.

Definition all_digits (cs : list ascii) : bool := forallb is_digit cs.

Definition special (neg : bool) (cs : list ascii) : option PyDecimal :=
  match map lower_char cs with
  | ["i"; "n"; "f"]%char => Some (Infinity neg)
  | ["i"; "n"; "f"; "i"; "n"; "i"; "t"; "y"]%char => Some (Infinity neg)
  | ("n" :: "a" :: "n" :: d)%char => if all_digits d then Some NaN else None
  | ("s" :: "n" :: "a" :: "n" :: d)%char => if all_digits d then Some NaN else None
  | _ => None
  end.

Definition drop_underscores (cs : list ascii) : list ascii :=
  filter (fun c => negb (Ascii.eqb c "_")) cs.

Definition parse (s : string) : option PyDecimal :=
  let cs := drop_underscores (chars (strip s)) in
  let '(neg, body) :=
    match cs with
    | "-"%char :: r => (true, r)
    | "+"%char :: r => (false, r)
    | _ => (false, cs)
    end in
  match special neg body with
  | Some v => Some v
  | None => option_map Finite (numeral neg body)
  end.

End DecParse.

(* ================================================================== *)
(** ** Exceptions and the handler monad *)

(** The two classes the handlers tell apart: [GraphQLError], raised by the
    validators, and every other [Exception].  The argument is [str(e)]. *)
Inductive exn : Type :=
| GraphQLError (message : string)
| Exception (message : string).

Definition str_exn (e : exn) : string :=
  match e with GraphQLError m => m | Exception m => m end.

Inductive result (A : Type) : Type :=
| Ok (a : A)
| Raise (e : exn).

Arguments Ok {A} a.
Arguments Raise {A} e.

(* ================================================================== *)
(** ** The entity store *)

(** Modelled from the spec: [crm/models.py] is missing; the three entity
    kinds and the Order-Product association are taken from section 3 of
    the specification and from the fields the mutations set (the address of
    a customer, which no mutation sets, is left out).  Rows are kept in
    insertion order and keys are assigned in increasing order. *)
Record Customer : Type := mkCustomer {
  c_id : Z;
  c_name : string;
  c_email : string;
  c_phone : string
}.

(** Modelled from the spec: the Product model of [crm/models.py], with a
    finite decimal price. *)
Record Product : Type := mkProduct {
  p_id : Z;
  p_name : string;
  p_price : Decimal;
  p_stock : Z
}.

(** Modelled from the spec: the Order model of [crm/models.py]; the
    customer is held by key, the date as a point in time, and the products
    in the association table of the store. *)
Record Order : Type := mkOrder {
  o_id : Z;
  o_customer : Z;
  o_order_date : Z;
  o_total_amount : Decimal
}.

(** Modelled from the spec: the three tables and the Order-Product
    association table of section 6. *)
Record Store : Type := mkStore {
  customers : list Customer;
  products : list Product;
  orders : list Order;
  order_products : list (Z * Z)
}.

Definition empty_store : Store := mkStore [] [] [] [].

(** The writes the mutations issue. *)
Inductive db_write : Type :=
| SaveCustomer (name email phone : string)
| CreateOrderRow (customer : Z) (order_date : Z) (total_amount : Decimal)
| SetOrderProducts (order : Z) (product_ids : list Z).

(** A fault model tells, for a write and the store it is issued on, whether
    the statement fails with a database error, and gives its message.  A
    statement that fails writes nothing. *)
Definition fault_model : Type := db_write -> Store -> option string.

Definition no_fault : fault_model := fun _ _ => None.

(** The state of the database connection during a request: the store as
    the connection sees it, whether an atomic block is open, and whether the
    open block was marked as broken by a failed write. *)
Record Connection : Type := mkConnection {
  db : Store;
  in_atomic_block : bool;
  needs_rollback : bool
}.

(** A request starts in autocommit mode. *)
Definition connect (st : Store) : Connection := mkConnection st false false.

Definition set_db (s : Store) (c : Connection) : Connection :=
  mkConnection s (in_atomic_block c) (needs_rollback c).

(** What [Model.save] and the related managers do when their statement
    fails inside an atomic block: the block is marked for rollback. *)
Definition mark_for_rollback_on_error (c : Connection) : Connection :=
  mkConnection (db c) (in_atomic_block c)
    (in_atomic_block c || needs_rollback c).

(** The handler monad: the connection is threaded through, also when an
    exception is raised. *)
Definition M (A : Type) : Type := Connection -> Connection * result A.

Definition ret {A} (a : A) : M A := fun c => (c, Ok a).

Definition raise {A} (e : exn) : M A := fun c => (c, Raise e).

Definition bind {A B} (m : M A) (k : A -> M B) : M B :=
  fun c =>
    match m c with
    | (c', Ok a) => k a c'
    | (c', Raise e) => (c', Raise e)
    end.

Notation "x <- m ;; k" := (bind m (fun x => k))
  (at level 61, m at next level, right associativity).
Notation "m ;;; k" := (bind m (fun _ => k))
  (at level 61, right associativity).

(** The handler as a request runs it: from the committed store to the
    store the connection is left with, and the outcome. *)
Definition run {A} (m : M A) (st : Store) : Store * result A :=
  let (c, r) := m (connect st) in (db c, r).

(** [try: body / except GraphQLError as e: h1 / except Exception as e: h2] *)
Definition try_except {A} (body : M A) (on_graphql on_other : exn -> M A)
  : M A :=
  fun c =>
    match body c with
    | (c', Ok a) => (c', Ok a)
    | (c', Raise (GraphQLError m)) => on_graphql (GraphQLError m) c'
    | (c', Raise (Exception m)) => on_other (Exception m) c'
    end.

(** The [TransactionManagementError] of
    [connection.validate_no_broken_transaction()]. *)
Definition BROKEN_TRANSACTION_MSG : string :=
  "An error occurred in the current transaction. You can't execute queries until the end of the 'atomic' block.".

(** A statement sent through a cursor: it is refused while the open atomic
    block is marked for rollback. *)
Definition execute {A} (stmt : Store -> Store * A) : M A :=
  fun c =>
    if needs_rollback c then (c, Raise (Exception BROKEN_TRANSACTION_MSG))
    else let (s, a) := stmt (db c) in (set_db s c, Ok a).

(** A statement that only reads. *)
Definition query {A} (f : Store -> A) : M A :=
  fun c =>
    if needs_rollback c then (c, Raise (Exception BROKEN_TRANSACTION_MSG))
    else (c, Ok (f (db c))).

(** [with transaction.atomic(): body], for a block that is not nested in
    another: on entry the flags are reset; on exit the writes of the body
    are committed, unless the body raised or left the block marked for
    rollback, in which case they are rolled back; an exception goes on. *)
Definition atomic {A} (body : M A) : M A :=
  fun c =>
    match body (mkConnection (db c) true false) with
    | (c', Ok a) =>
        if needs_rollback c'
        then (mkConnection (db c) false false, Ok a)
        else (mkConnection (db c') false false, Ok a)
    | (_, Raise e) => (mkConnection (db c) false false, Raise e)
    end.

(** [transaction.savepoint()], [savepoint_commit], [savepoint_rollback],
    inside an atomic block: each is a statement; a savepoint identifies the
    state of the transaction when it was taken. *)
Definition savepoint : M Store := query (fun s => s).

Definition savepoint_commit (spid : Store) : M unit := query (fun _ => tt).

Definition savepoint_rollback (spid : Store) : M unit :=
  execute (fun _ => (spid, tt)).

(* ================================================================== *)
(** ** Validators *)

Definition EMAIL_EXISTS_MSG : string := "Email already exists.".

Module PhoneRe.
Import PyStr.

Definition plus_form (cs : list ascii) : bool :=
  match cs with
  | "+"%char :: ds =>
      forallb is_digit ds
      && (10 <=? List.length ds)%nat && (List.length ds <=? 15)%nat
  | _ => false
  end.

Definition dashed_form (cs : list ascii) : bool :=
  match cs with
  | [a; b; c; "-"; d; e; f; "-"; g; h; i; j]%char =>
      forallb is_digit [a; b; c; d; e; f; g; h; i; j]
  | _ => false
  end.

Definition alternatives (cs : list ascii) : bool :=
  plus_form cs || dashed_form cs.

Definition newline : ascii := ascii_of_N 10.

(** [PHONE_RE.match(s) is not None] for
    [^(\+\d{10,15}|\d{3}-\d{3}-\d{4})$]; without the MULTILINE flag the
    final [$] also matches just before a newline that ends the text. *)
Definition matches (s : string) : bool :=
  let cs := chars s in
  alternatives cs
  || match rev cs with
     | c :: r => Ascii.eqb c newline && alternatives (rev r)
     | [] => false
     end.

End PhoneRe.

Definition mem (k : Z) (l : list Z) : bool := existsb (Z.eqb k) l.

(** [Customer.objects.filter(email__iexact=email).exists()] *)
Definition email_exists (email : string) (st : Store) : bool :=
  existsb (fun c => PyStr.iexact (c_email c) email) (customers st).

Definition validate_email_unique (email : string) : M unit :=
  found <- query (email_exists email) ;;
  if found then raise (GraphQLError EMAIL_EXISTS_MSG) else ret tt.

Definition validate_phone (phone : option string) : M unit :=
  match phone with
  | Some p =>
      if PyStr.truthy p && negb (PhoneRe.matches p)
      then raise (GraphQLError
                    "Invalid phone format. Use +1234567890 or 123-456-7890.")
      else ret tt
  | None => ret tt
  end.

(** [price <= 0] on a [Decimal]; the comparison of a NaN is an invalid
    operation, which the default context raises. *)
Definition le_zero (d : PyDecimal) : result bool :=
  match d with
  | Finite d => Ok (coef d <=? 0)
  | Infinity negative => Ok negative
  | NaN => Raise (Exception "[<class 'decimal.InvalidOperation'>]")
  end.

(** [validate_price_and_stock(price, stock)]; the first argument is the
    text [str(price)] the function starts from. *)
Definition validate_price_and_stock (price : string) (stock : option Z)
  : result (PyDecimal * Z) :=
  match DecParse.parse price with
  | None => Raise (GraphQLError "Price must be a valid decimal number.")
  | Some price =>
      match le_zero price with
      | Raise e => Raise e
      | Ok true => Raise (GraphQLError "Price must be positive.")
      | Ok false =>
          match stock with
          | Some s =>
              if s <? 0 then Raise (GraphQLError "Stock cannot be negative.")
              else Ok (price, s)
          | None => Ok (price, 0)
          end
      end
  end.

(* ================================================================== *)
(** ** Writes *)

Definition next_id (ids : list Z) : Z := 1 + fold_right Z.max 0 ids.

Definition insert_customer (c : Customer) (st : Store) : Store :=
  mkStore (customers st ++ [c]) (products st) (orders st) (order_products st).

Definition insert_order (o : Order) (st : Store) : Store :=
  mkStore (customers st) (products st) (orders st ++ [o]) (order_products st).

(** [order.products.set(ps)]: afterwards the order is linked to each
    product of [ps] once and to nothing else. *)
Definition set_links (order : Z) (pids : list Z) (st : Store) : Store :=
  mkStore (customers st) (products st) (orders st)
    (filter (fun l => negb (fst l =? order)) (order_products st)
     ++ map (pair order) (nodup Z.eq_dec pids)).

(** The products an order is linked to. *)
Definition linked_products (order : Z) (st : Store) : list Product :=
  filter (fun p =>
            existsb (fun l => (fst l =? order) && (snd l =? p_id p))
                    (order_products st))
         (products st).

(** [sorted(set(l))] *)
Fixpoint insert_uniq (k : Z) (l : list Z) : list Z :=
  match l with
  | [] => [k]
  | x :: r =>
      if k <? x then k :: l
      else if k =? x then l
      else x :: insert_uniq k r
  end.

Definition sorted_set (l : list Z) : list Z := fold_right insert_uniq [] l.

(** [[int(pid) for pid in product_ids]]; [None] when a conversion raises
    [TypeError] (a null id) or [ValueError]. *)
Fixpoint int_all (ids : list (option string)) : option (list Z) :=
  match ids with
  | [] => Some []
  | Some s :: r =>
      match PyStr.int s, int_all r with
      | Some k, Some ks => Some (k :: ks)
      | _, _ => None
      end
  | None :: _ => None
  end.

(* ================================================================== *)
(** ** Mutations *)

Record CustomerInput : Type := mkCustomerInput {
  ci_name : string;
  ci_email : string;
  ci_phone : option string
}.

Record BulkErrorType : Type := mkBulkError {
  index : nat;
  email : option string;
  message : string
}.

Record CreateCustomer : Type := mkCreateCustomer {
  cc_ok : bool;
  cc_message : string;
  cc_customer : Customer
}.

Record BulkCreateCustomers : Type := mkBulkCreateCustomers {
  created : list Customer;
  errors : list BulkErrorType
}.

Record CreateOrder : Type := mkCreateOrder {
  co_ok : bool;
  co_order : Order;
  co_message : string
}.

Section Mutations.

Variable storage_fault : fault_model.

(** A write is a statement that either fails as the fault model says,
    marking the open atomic block, or is carried out. *)
Definition write {A} (w : db_write) (apply : Store -> Store * A) : M A :=
  fun c =>
    if needs_rollback c then (c, Raise (Exception BROKEN_TRANSACTION_MSG))
    else
      match storage_fault w (db c) with
      | Some msg => (mark_for_rollback_on_error c, Raise (Exception msg))
      | None => let (s, a) := apply (db c) in (set_db s c, Ok a)
      end.

(** [Customer(name=..., email=..., phone=...).save()] *)
Definition customer_save (name email phone : string) : M Customer :=
  write (SaveCustomer name email phone)
    (fun st =>
       let c := mkCustomer (next_id (map c_id (customers st))) name email phone in
       (insert_customer c st, c)).

(** [Order.objects.create(customer=..., order_date=..., total_amount=...)] *)
Definition order_create (customer order_date : Z) (total_amount : Decimal)
  : M Order :=
  write (CreateOrderRow customer order_date total_amount)
    (fun st =>
       let o := mkOrder (next_id (map o_id (orders st)))
                        customer order_date total_amount in
       (insert_order o st, o)).

(** [order.products.set(products)] *)
Definition products_set (order : Order) (ps : list Product) : M unit :=
  write (SetOrderProducts (o_id order) (map p_id ps))
    (fun st => (set_links (o_id order) (map p_id ps) st, tt)).

(** *** CreateCustomer.mutate *)
Definition create_customer (name email : string) (phone : option string)
  : M CreateCustomer :=
  validate_email_unique email ;;;
  validate_phone phone ;;;
  customer <- customer_save (PyStr.strip name) (PyStr.strip email)
                            (PyStr.or_empty phone) ;;
  ret (mkCreateCustomer true "Customer created." customer).

(** *** BulkCreateCustomers.mutate *)

(** The body of the [try] for one element [c] of the input list; the list
    may hold nulls, on which reading [c.name] raises [AttributeError]. *)
Definition bulk_item (c : option CustomerInput) : M Customer :=
  match c with
  | None => raise (Exception "'NoneType' object has no attribute 'name'")
  | Some c =>
      if negb (PyStr.truthy (ci_name c)) || negb (PyStr.truthy (ci_email c))
      then raise (GraphQLError "Both name and email are required.")
      else
        validate_email_unique (ci_email c) ;;;
        validate_phone (ci_phone c) ;;;
        customer_save (PyStr.strip (ci_name c)) (PyStr.strip (ci_email c))
                      (PyStr.or_empty (ci_phone c))
  end.

(** [getattr(c, "email", None)] *)
Definition getattr_email (c : option CustomerInput) : option string :=
  option_map ci_email c.

(** The [for idx, c in enumerate(customers)] loop, from position [idx] on,
    with the two accumulators. *)
Fixpoint bulk_loop (idx : nat) (cs : list (option CustomerInput))
  (created_objs : list Customer) (errs : list BulkErrorType)
  : M (list Customer * list BulkErrorType) :=
  match cs with
  | [] => ret (created_objs, errs)
  | c :: rest =>
      spid <- savepoint ;;
      acc <- try_except
               (obj <- bulk_item c ;;
                savepoint_commit spid ;;;
                ret (created_objs ++ [obj], errs))
               (fun e =>
                  savepoint_rollback spid ;;;
                  ret (created_objs,
                       errs ++ [mkBulkError idx (getattr_email c) (str_exn e)]))
               (fun e =>
                  savepoint_rollback spid ;;;
                  ret (created_objs,
                       errs ++ [mkBulkError idx (getattr_email c)
                                  ("Unexpected error: " ++ str_exn e)%string])) ;;
      bulk_loop (S idx) rest (fst acc) (snd acc)
  end.

Definition bulk_create_customers (cs : list (option CustomerInput))
  : M BulkCreateCustomers :=
  acc <- atomic (bulk_loop 0 cs [] []) ;;
  ret (mkBulkCreateCustomers (fst acc) (snd acc)).

(** *** CreateOrder.mutate *)

(** [Customer.objects.filter(pk=pk).first()] *)
Definition customer_by_pk (pk : Z) (st : Store) : option Customer :=
  find (fun c => c_id c =? pk) (customers st).

(** [list(Product.objects.filter(pk__in=pks))] *)
Definition products_in (pks : list Z) (st : Store) : list Product :=
  filter (fun p => mem (p_id p) pks) (products st).

(** [set(product_pks) - {p.pk for p in products}], sorted. *)
Definition missing_ids (pks : list Z) (found : list Product) : list Z :=
  sorted_set (filter (fun k => negb (mem k (map p_id found))) pks).

(** [order_date or timezone.now()]; [now] is the reading of the clock. *)
Definition order_date_or (order_date : option Z) (now : Z) : Z :=
  match order_date with Some d => d | None => now end.

Definition create_order (customer_id : string)
  (product_ids : list (option string)) (order_date : option Z) (now : Z)
  : M CreateOrder :=
  match product_ids with
  | [] => raise (GraphQLError "At least one product must be selected.")
  | _ =>
      match PyStr.int customer_id with
      | None => raise (GraphQLError "Invalid customer ID.")
      | Some customer_pk =>
          customer <- query (customer_by_pk customer_pk) ;;
          match customer with
          | None => raise (GraphQLError "Customer not found.")
          | Some customer =>
              match int_all product_ids with
              | None => raise (GraphQLError "All product IDs must be integers.")
              | Some product_pks =>
                  ps <- query (products_in product_pks) ;;
                  match missing_ids product_pks ps with
                  | (_ :: _) as missing =>
                      raise (GraphQLError
                               ("Invalid product ID(s): "
                                ++ PyStr.repr_list missing)%string)
                  | [] =>
                      let total_amount := Dec.sum (map p_price ps) in
                      order <- atomic
                                 (order <- order_create (c_id customer)
                                             (order_date_or order_date now)
                                             total_amount ;;
                                  products_set order ps ;;;
                                  ret order) ;;
                      ret (mkCreateOrder true order "Order created.")
                  end
              end
          end
      end
  end.

End Mutations.

(* ================================================================== *)
(** ** Vocabulary of the properties *)

(** The entry the bulk loop appends for an exception [e] raised on the
    element [c] at position [idx]. *)
Definition bulk_error (idx : nat) (c : option CustomerInput) (e : exn)
  : BulkErrorType :=
  mkBulkError idx (getattr_email c)
    match e with
    | GraphQLError m => m
    | Exception m => ("Unexpected error: " ++ m)%string
    end.

(** The elements of [l] at the positions where [flags] is [true]. *)
Fixpoint select {A} (flags : list bool) (l : list A) : list A :=
  match flags, l with
  | b :: fs, x :: r => if b then x :: select fs r else select fs r
  | _, _ => []
  end.

Definition customer_fields (c : Customer) : string * string * string :=
  (c_name c, c_email c, c_phone c).

(** The fields of the row a bulk element is saved as. *)
Definition row_of_input (c : option CustomerInput)
  : option (string * string * string) :=
  option_map (fun c => (PyStr.strip (ci_name c), PyStr.strip (ci_email c),
                        PyStr.or_empty (ci_phone c))) c.

(** No two of the strings are equal ignoring case. *)
Fixpoint distinct_ci (l : list string) : bool :=
  match l with
  | [] => true
  | e :: r => negb (existsb (PyStr.iexact e) r) && distinct_ci r
  end.

Definition emails_unique (st : Store) : bool :=
  distinct_ci (map c_email (customers st)).


(** The connection inside an atomic block that is not marked. *)
Definition in_block (c : Connection) : Prop :=
  in_atomic_block c = true /\ needs_rollback c = false.

(** *** Fault models used as examples *)

(** A storage-level unique index on [Customer.email] that compares the
    stored texts exactly. *)
Definition unique_email_index : fault_model :=
  fun w st =>
    match w with
    | SaveCustomer _ e _ =>
        if existsb (fun c => String.eqb (c_email c) e) (customers st)
        then Some "UNIQUE constraint failed: crm_customer.email"
        else None
    | _ => None
    end.

(** The statement that saves a customer called [name] fails. *)
Definition locked_on_save (name : string) : fault_model :=
  fun w st =>
    match w with
    | SaveCustomer n _ _ =>
        if String.eqb n name then Some "database is locked" else None
    | _ => None
    end.

(** Assigning the product links of any order fails. *)
Definition links_unavailable : fault_model :=
  fun w st =>
    match w with
    | SetOrderProducts _ _ => Some "database is locked"
    | _ => None
    end.

(** *** Example stores and inputs *)

(** The rows [seed_db.py] creates for customers and products. *)
Definition seed_store : Store :=
  mkStore
    [mkCustomer 1 "Alice" "alice@example.com" "+1234567890";
     mkCustomer 2 "Bob" "bob@example.com" "123-456-7890"]
    [mkProduct 1 "Laptop" (mkDecimal 99999 (-2)) 10;
     mkProduct 2 "Phone" (mkDecimal 49999 (-2)) 25;
     mkProduct 3 "Tablet" (mkDecimal 29999 (-2)) 15]
    [] [].

(** Only products 1 and 2 exist. *)
Definition two_product_store : Store :=
  mkStore
    [mkCustomer 1 "Alice" "alice@example.com" "+1234567890"]
    [mkProduct 1 "Laptop" (mkDecimal 99999 (-2)) 10;
     mkProduct 2 "Phone" (mkDecimal 49999 (-2)) 25]
    [] [].

(** The order of products 1 and 2 for customer 1, and the seeded store
    once it is placed. *)
Definition laptop_phone_order : Order :=
  mkOrder 1 1 0 (mkDecimal 149998 (-2)).

Definition seed_store_with_order : Store :=
  mkStore (customers seed_store) (products seed_store)
    [laptop_phone_order] [(1, 1); (1, 2)].

Definition input (name email : string) : option CustomerInput :=
  Some (mkCustomerInput name email None).

(** The batch of the "bulk partial success" property. *)
Definition partial_batch : list (option CustomerInput) :=
  [input "A" "a@x.com"; input "" "b@x.com"; input "C" "a@x.com"].

(** Three valid elements. *)
Definition three_batch : list (option CustomerInput) :=
  [input "A" "a@x.com"; input "B" "b@x.com"; input "C" "c@x.com"].

(** A valid element, a null, an element with a bad phone, a valid one. *)
Definition mixed_batch : list (option CustomerInput) :=
  [input "A" "a@x.com"; None;
   Some (mkCustomerInput "B" "b@x.com" (Some "12345"));
   input "C" "c@x.com"].

(** Two elements with the same email, written with a leading blank. *)
Definition blank_led_batch : list (option CustomerInput) :=
  [input "A" " a@x.com"; input "B" " a@x.com"].

(* ================================================================== *)
(** ** CreateProduct *)

(** The [Product] instance a handler holds after [save()]: its key is
    assigned, its attributes are the values it was built with. *)
Record ProductInstance : Type := mkProductInstance {
  pi_id : Z;
  pi_name : string;
  pi_price : PyDecimal;
  pi_stock : Z
}.

Record CreateProduct : Type := mkCreateProduct {
  cp_ok : bool;
  cp_product : ProductInstance;
  cp_message : string
}.

Definition insert_product (p : Product) (st : Store) : Store :=
  mkStore (customers st) (products st ++ [p]) (orders st) (order_products st).

(** A validator that does not touch the connection, inside a handler. *)
Definition lift {A} (r : result A) : M A := fun c => (c, r).

Section ProductMutation.

(** The price column of the product table is declared in [crm/models.py],
    which is missing: what the INSERT of a product stores for its price, or
    the message of the error the statement raises, is a parameter. *)
Variable product_insert : string -> PyDecimal -> Z -> Store -> Decimal + string.

(** [Product(name=..., price=..., stock=...).save()] *)
Definition product_save (name : string) (price : PyDecimal) (stock : Z)
  : M ProductInstance :=
  fun c =>
    if needs_rollback c then (c, Raise (Exception BROKEN_TRANSACTION_MSG))
    else
      match product_insert name price stock (db c) with
      | inr msg => (mark_for_rollback_on_error c, Raise (Exception msg))
      | inl stored =>
          let pk := next_id (map p_id (products (db c))) in
          (set_db (insert_product (mkProduct pk name stored stock) (db c)) c,
           Ok (mkProductInstance pk name price stock))
      end.

(** *** CreateProduct.mutate; [price] is the text [str(price)]. *)
Definition create_product (name price : string) (stock : option Z)
  : M CreateProduct :=
  cleaned <- lift (validate_price_and_stock price stock) ;;
  if negb (PyStr.truthy (PyStr.strip name))
  then raise (GraphQLError "Product name is required.")
  else
    product <- product_save (PyStr.strip name) (fst cleaned) (snd cleaned) ;;
    ret (mkCreateProduct true product "Product created.").

End ProductMutation.

(* ================================================================== *)
(** ** Further vocabulary *)

(** A customer row as the mutations write it: name and email without
    surrounding blanks, and a phone that is empty or in one of the two
    formats. *)
Definition row_ok (c : Customer) : bool :=
  String.eqb (PyStr.strip (c_name c)) (c_name c)
  && String.eqb (PyStr.strip (c_email c)) (c_email c)
  && (negb (PyStr.truthy (c_phone c)) || PhoneRe.matches (c_phone c)).

Definition rows_ok (st : Store) : bool := forallb row_ok (customers st).

(** Referential integrity: the customer of every order exists, and every
    link joins an existing order to an existing product. *)
Definition refs_ok (st : Store) : bool :=
  forallb (fun o => mem (o_customer o) (map c_id (customers st))) (orders st)
  && forallb (fun l => mem (fst l) (map o_id (orders st))
                       && mem (snd l) (map p_id (products st)))
       (order_products st).



Definition NULL_ELEMENT_MSG : string :=
  "Unexpected error: 'NoneType' object has no attribute 'name'".


(** A price column that keeps finite prices as they are and refuses the
    others. *)
Definition plain_price_column : string -> PyDecimal -> Z -> Store -> Decimal + string :=
  fun _ price _ _ =>
    match price with
    | Finite d => inl d
    | _ => inr "[<class 'decimal.InvalidOperation'>]"
    end.

(** The seeded store after a product "Desk" at 19.99 with stock 5 was
    created. *)
Definition seed_store_with_desk : Store :=
  insert_product (mkProduct 4 "Desk" (mkDecimal 1999 (-2)) 5) seed_store.

(** The seeded store after customer "Carol" was created. *)
Definition seed_store_with_carol : Store :=
  insert_customer (mkCustomer 3 "Carol" "carol@example.com" "") seed_store.

(* ================================================================== *)
(** * Properties *)

(** ** Lists of keys *)

Lemma mem_In (k : Z) (l : list Z) : mem k l = true <-> In k l.
Proof.
  unfold mem. rewrite existsb_exists. split.
  - intros [x [Hx E]]. apply Z.eqb_eq in E. now subst.
  - intros H. exists k. split; [assumption | apply Z.eqb_refl].
Qed.


Lemma insert_uniq_In (x k : Z) (l : list Z) :
  In k (insert_uniq x l) <-> k = x \/ In k l.
Proof.
  induction l as [|y r IH]; simpl.
  - intuition.
  - destruct (x <? y) eqn:Hlt; simpl.
    + intuition.
    + destruct (x =? y) eqn:Heq; simpl.
      * apply Z.eqb_eq in Heq. subst. intuition.
      * rewrite IH. intuition.
Qed.

Lemma sorted_set_In (k : Z) (l : list Z) : In k (sorted_set l) <-> In k l.
Proof.
  induction l as [|x r IH]; simpl.
  - reflexivity.
  - rewrite insert_uniq_In, IH. intuition.
Qed.

Lemma insert_uniq_sorted (x : Z) (l : list Z) :
  StronglySorted Z.lt l -> StronglySorted Z.lt (insert_uniq x l).
Proof.
  induction l as [|y r IH]; intros Hs; simpl.
  - constructor; constructor.
  - inversion Hs as [|? ? Hr Hall]; subst.
    destruct (x <? y) eqn:Hlt.
    + apply Z.ltb_lt in Hlt. constructor; [assumption|].
      constructor; [assumption|].
      eapply Forall_impl; [|exact Hall]. intros; lia.
    + destruct (x =? y) eqn:Heq; [assumption|].
      apply Z.ltb_ge in Hlt. apply Z.eqb_neq in Heq.
      constructor; [now apply IH|].
      apply Forall_forall. intros k Hk. apply insert_uniq_In in Hk.
      destruct Hk as [->|Hk]; [lia|].
      rewrite Forall_forall in Hall. now apply Hall.
Qed.

Lemma sorted_set_sorted (l : list Z) : StronglySorted Z.lt (sorted_set l).
Proof.
  induction l as [|x r IH]; simpl.
  - constructor.
  - now apply insert_uniq_sorted.
Qed.

(** A strictly increasing list is determined by its elements. *)
Lemma sorted_lt_ext (l l' : list Z) :
  StronglySorted Z.lt l -> StronglySorted Z.lt l' ->
  (forall k, In k l <-> In k l') -> l = l'.
Proof.
  revert l'. induction l as [|x r IH]; intros l' Hs Hs' Hin.
  - destruct l' as [|y r']; [reflexivity|].
    exfalso. apply (Hin y). now left.
  - destruct l' as [|y r'].
    + exfalso. apply (Hin x). now left.
    + inversion Hs as [|? ? Hr Hall]; subst.
      inversion Hs' as [|? ? Hr' Hall']; subst.
      rewrite Forall_forall in Hall, Hall'.
      assert (x = y) as ->.
      { destruct (proj1 (Hin x) (or_introl eq_refl)) as [E|Hx]; [now symmetry|].
        destruct (proj2 (Hin y) (or_introl eq_refl)) as [E|Hy]; [assumption|].
        specialize (Hall _ Hy). specialize (Hall' _ Hx). lia. }
      f_equal. apply IH; try assumption.
      intros k. split; intros Hk.
      * destruct (proj1 (Hin k) (or_intror Hk)) as [E|H']; [|assumption].
        specialize (Hall _ Hk). lia.
      * destruct (proj2 (Hin k) (or_intror Hk)) as [E|H']; [|assumption].
        specialize (Hall' _ Hk). lia.
Qed.

Lemma sorted_set_ext (l l' : list Z) :
  (forall k, In k l <-> In k l') -> sorted_set l = sorted_set l'.
Proof.
  intros H. apply sorted_lt_ext; try apply sorted_set_sorted.
  intros k. rewrite !sorted_set_In. apply H.
Qed.

(** ** Fetching products *)

Lemma products_in_ids (pks : list Z) (st : Store) (k : Z) :
  In k (map p_id (products_in pks st)) <->
  In k pks /\ In k (map p_id (products st)).
Proof.
  unfold products_in. rewrite !in_map_iff. split.
  - intros [p [E Hp]]. apply filter_In in Hp. destruct Hp as [Hp Hm].
    apply mem_In in Hm. subst k. split; [assumption|]. now exists p.
  - intros [Hk [p [E Hp]]]. exists p. split; [assumption|].
    apply filter_In. split; [assumption|]. apply mem_In. now rewrite E.
Qed.

Lemma missing_ids_In (pks : list Z) (st : Store) (k : Z) :
  In k (missing_ids pks (products_in pks st)) <->
  In k pks /\ ~ In k (map p_id (products st)).
Proof.
  unfold missing_ids. rewrite sorted_set_In, filter_In, negb_true_iff.
  rewrite <- Bool.not_true_iff_false, mem_In, products_in_ids. tauto.
Qed.




(** ** Statements and connections *)

Ltac step_conn :=
  cbn [needs_rollback in_atomic_block db set_db connect
       mark_for_rollback_on_error fst snd orb].

Section OrderProperties.

Variable fault : fault_model.

Lemma write_ok_inv {A} (w : db_write) (apply : Store -> Store * A)
  (c c' : Connection) (a : A) :
  write fault w apply c = (c', Ok a) ->
  needs_rollback c = false /\ fault w (db c) = None
  /\ c' = set_db (fst (apply (db c))) c /\ a = snd (apply (db c)).
Proof.
  unfold write. destruct (needs_rollback c); [discriminate|].
  destruct (fault w (db c)) as [m|]; [discriminate|].
  destruct (apply (db c)) as [s a']. intros H. inversion H. now subst.
Qed.

(** A write that raises leaves the store of the connection as it was. *)
Lemma write_raise_inv {A} (w : db_write) (apply : Store -> Store * A)
  (c c' : Connection) (e : exn) :
  write fault w apply c = (c', Raise e) ->
  db c' = db c /\ in_atomic_block c' = in_atomic_block c
  /\ exists m, e = Exception m.
Proof.
  unfold write. destruct (needs_rollback c).
  - intros H. inversion H; subst. eauto.
  - destruct (fault w (db c)) as [m|].
    + intros H. inversion H; subst. step_conn. eauto.
    + destruct (apply (db c)). discriminate.
Qed.

(** The steps of [create_order] up to its atomic block only read. *)
Lemma create_order_run (cid : string) (ids : list (option string))
  (od : option Z) (now : Z) (st : Store) :
  run (create_order fault cid ids od now) st
  = match ids with
    | [] => (st, Raise (GraphQLError "At least one product must be selected."))
    | _ =>
        match PyStr.int cid with
        | None => (st, Raise (GraphQLError "Invalid customer ID."))
        | Some cpk =>
            match customer_by_pk cpk st with
            | None => (st, Raise (GraphQLError "Customer not found."))
            | Some cust =>
                match int_all ids with
                | None =>
                    (st, Raise (GraphQLError "All product IDs must be integers."))
                | Some pks =>
                    match missing_ids pks (products_in pks st) with
                    | (_ :: _) as missing =>
                        (st, Raise (GraphQLError
                                      ("Invalid product ID(s): "
                                       ++ PyStr.repr_list missing)%string))
                    | [] =>
                        run (order <- atomic
                                        (order <- order_create fault (c_id cust)
                                                    (order_date_or od now)
                                                    (Dec.sum (map p_price
                                                       (products_in pks st))) ;;
                                         products_set fault order
                                           (products_in pks st) ;;;
                                         ret order) ;;
                             ret (mkCreateOrder true order "Order created.")) st
                    end
                end
            end
        end
    end.
Proof.
  unfold run, create_order. destruct ids as [|i ids']; [reflexivity|].
  destruct (PyStr.int cid) as [cpk|]; [|reflexivity].
  unfold bind at 1. unfold query at 1. step_conn.
  destruct (customer_by_pk cpk st) as [cust|]; [|reflexivity].
  destruct (int_all (i :: ids')) as [pks|]; [|reflexivity].
  unfold bind at 1. unfold query at 1. step_conn.
  destruct (missing_ids pks (products_in pks st)); reflexivity.
Qed.

(** What a successful [create_order] has done. *)
Lemma create_order_ok_inv (cid : string) (ids : list (option string))
  (od : option Z) (now : Z) (st st' : Store) (r : CreateOrder) :
  run (create_order fault cid ids od now) st = (st', Ok r) ->
  exists cust pks,
    int_all ids = Some pks /\
    customer_by_pk (c_id cust) st = Some cust /\
    missing_ids pks (products_in pks st) = [] /\
    co_order r = mkOrder (next_id (map o_id (orders st))) (c_id cust)
                   (order_date_or od now)
                   (Dec.sum (map p_price (products_in pks st))) /\
    st' = set_links (o_id (co_order r)) (map p_id (products_in pks st))
            (insert_order (co_order r) st).
Proof.
  rewrite create_order_run. destruct ids as [|i ids']; [discriminate|].
  destruct (PyStr.int cid) as [cpk|]; [|discriminate].
  destruct (customer_by_pk cpk st) as [cust|] eqn:Hc; [|discriminate].
  destruct (int_all (i :: ids')) as [pks|]; [|discriminate].
  destruct (missing_ids pks (products_in pks st)) eqn:Hm; [|discriminate].
  assert (Hpk : c_id cust = cpk).
  { unfold customer_by_pk in Hc. apply find_some in Hc.
    now apply Z.eqb_eq. }
  subst cpk. unfold run. unfold bind at 1. unfold atomic. step_conn.
  unfold bind at 1.
  destruct (order_create fault _ _ _ _) as [c1 [o|e]] eqn:Ho; [|discriminate].
  unfold bind at 1.
  destruct (products_set fault o _ c1) as [c2 [[]|e]] eqn:Hl; [|discriminate].
  apply write_ok_inv in Ho. destruct Ho as [_ [_ [Hc1 Ho]]].
  apply write_ok_inv in Hl. destruct Hl as [_ [_ [Hc2 _]]].
  cbn in Hc1, Ho. subst c1 o. cbn in Hc2. subst c2.
  unfold ret. step_conn.
  intros H. inversion H; subst st' r; clear H. cbn [co_order o_id].
  exists cust, pks. repeat split; try reflexivity; assumption.
Qed.


Lemma linked_products_set_links (oid : Z) (pks : list Z) (o : Order)
  (st : Store) :
  linked_products oid
    (set_links oid (map p_id (products_in pks st)) (insert_order o st))
  = products_in pks st.
Proof.
  unfold linked_products, products_in. simpl. apply filter_ext_in.
  intros p Hp. apply Bool.eq_iff_eq_true.
  rewrite existsb_exists, mem_In. split.
  - intros [[a b] [Hin E]]. simpl in E. apply andb_true_iff in E.
    destruct E as [Ea Eb]. apply Z.eqb_eq in Ea, Eb. subst a b.
    apply in_app_or in Hin. destruct Hin as [Hin|Hin].
    + apply filter_In in Hin. destruct Hin as [_ Hn]. simpl in Hn.
      now rewrite Z.eqb_refl in Hn.
    + apply in_map_iff in Hin. destruct Hin as [k [Ek Hk]].
      inversion Ek; subst k. apply nodup_In in Hk.
      apply (products_in_ids pks st) in Hk. tauto.
  - intros Hk. exists (oid, p_id p). simpl. rewrite !Z.eqb_refl.
    split; [|reflexivity]. apply in_or_app. right.
    apply in_map. apply nodup_In. apply (products_in_ids pks st).
    split; [assumption|]. now apply in_map.
Qed.

End OrderProperties.

(** ** CreateOrder *)

(** The order row is in the open transaction when the link assignment is
    attempted; the failure of the latter marks the block, and the block
    undoes the row on its way out. *)
Example order_row_written_before_links :
  let body :=
    order <- order_create links_unavailable 1 0 (mkDecimal 149998 (-2)) ;;
    products_set links_unavailable order [] ;;;
    ret order in
  let inside := body (mkConnection seed_store true false) in
  map o_id (orders (db (fst inside))) = [1]
  /\ needs_rollback (fst inside) = true
  /\ snd inside = Raise (Exception "database is locked")
  /\ run (atomic body) seed_store
     = (seed_store, Raise (Exception "database is locked")).
Proof. vm_compute. repeat split. Qed.

(** C6. [create_order] is atomic: whatever the fault model, a call that
    raises -- in particular one whose product-link assignment fails after the
    order row was created -- leaves the store exactly as it found it. *)
Theorem create_order_atomic (fault : fault_model) (cid : string)
  (ids : list (option string)) (od : option Z) (now : Z)
  (st st' : Store) (e : exn) :
  run (create_order fault cid ids od now) st = (st', Raise e) -> st' = st.
Proof.
  rewrite create_order_run. destruct ids as [|i ids'].
  { intros H. now inversion H. }
  destruct (PyStr.int cid) as [cpk|].
  2: { intros H. now inversion H. }
  destruct (customer_by_pk cpk st) as [cust|].
  2: { intros H. now inversion H. }
  destruct (int_all (i :: ids')) as [pks|].
  2: { intros H. now inversion H. }
  destruct (missing_ids pks (products_in pks st)).
  2: { intros H. now inversion H. }
  match goal with |- context [atomic ?b] => generalize b end.
  intros body. unfold run. unfold bind at 1. unfold atomic. step_conn.
  destruct (body _) as [c1 [o|e1]].
  - destruct (needs_rollback c1); discriminate.
  - intros H. now inversion H.
Qed.

Lemma create_order_atomic_witness :
  fst (run (create_order links_unavailable "1" [Some "1"; Some "2"] None 0)
         seed_store)
  = seed_store.
Proof.
  apply (create_order_atomic links_unavailable "1" [Some "1"; Some "2"] None 0
           seed_store _ (Exception "database is locked")).
  vm_compute. reflexivity.
Defined.



(** The "missing product detection" example of the specification. *)
Example create_order_missing_999 :
  run (create_order no_fault "1" [Some "1"; Some "2"; Some "999"] None 0)
    two_product_store
  = (two_product_store, Raise (GraphQLError "Invalid product ID(s): [999]")).
Proof. vm_compute. reflexivity. Qed.



(** A repeated id on the seeded store: one order, two links, one total. *)
Example create_order_repeated_id :
  run (create_order no_fault "1" [Some "2"; Some "1"; Some "2"] None 0) seed_store
  = (seed_store_with_order,
     Ok (mkCreateOrder true laptop_phone_order "Order created.")).
Proof. vm_compute. reflexivity. Qed.

(** ** Selections of a list *)

Lemma select_In {A} (flags : list bool) (l : list A) (x : A) :
  In x (select flags l) -> In x l.
Proof.
  revert l. induction flags as [|b fs IH]; intros [|y r]; simpl; try tauto.
  destruct b; simpl; intros H.
  - destruct H as [H|H]; [now left | right; now apply IH].
  - right. now apply IH.
Qed.

Lemma select_map {A B} (f : A -> B) (flags : list bool) (l : list A) :
  select flags (map f l) = map f (select flags l).
Proof.
  revert l. induction flags as [|b fs IH]; intros [|y r]; simpl; try reflexivity.
  destruct b; simpl; now rewrite IH.
Qed.





Lemma filter_none {A} (f : A -> bool) (l : list A) :
  (forall x, In x l -> f x = false) -> filter f l = [].
Proof.
  induction l as [|x r IH]; simpl; intros H; [reflexivity|].
  rewrite (H x (or_introl eq_refl)). apply IH. intros y Hy. apply H. now right.
Qed.

(** ** The bulk loop *)

Section BulkProperties.

Variable fault : fault_model.

Lemma validate_phone_conn (phone : option string) (c c' : Connection)
  (r : result unit) :
  validate_phone phone c = (c', r) -> c' = c.
Proof.
  unfold validate_phone.
  destruct phone as [p|];
    [destruct (PyStr.truthy p && negb (PhoneRe.matches p))|];
    unfold raise, ret; intros H; now inversion H.
Qed.

(** What the body of the [try] does on an unmarked connection: it saves
    the row of the element; or it raises and leaves the connection as it
    was; or its save fails, which marks the connection. *)
Lemma bulk_item_cases (c : option CustomerInput) (conn : Connection) :
  needs_rollback conn = false ->
  match bulk_item fault c conn with
  | (c1, Ok obj) =>
      exists ci,
        c = Some ci
        /\ email_exists (ci_email ci) (db conn) = false
        /\ obj = mkCustomer (next_id (map c_id (customers (db conn))))
                   (PyStr.strip (ci_name ci)) (PyStr.strip (ci_email ci))
                   (PyStr.or_empty (ci_phone ci))
        /\ c1 = set_db (insert_customer obj (db conn)) conn
  | (c1, Raise e) =>
      c1 = conn
      \/ (exists w m, fault w (db conn) = Some m)
         /\ c1 = mark_for_rollback_on_error conn
  end.
Proof.
  intros Hn. destruct c as [ci|]; simpl; [|now left].
  destruct (negb (PyStr.truthy (ci_name ci)) || negb (PyStr.truthy (ci_email ci)));
    [now left|].
  unfold bind at 1. unfold validate_email_unique.
  unfold bind at 1. unfold query. rewrite Hn.
  destruct (email_exists (ci_email ci) (db conn)) eqn:Hx; [now left|].
  unfold ret at 1. unfold bind at 1.
  destruct (validate_phone (ci_phone ci) conn) as [c0 [[]|e]] eqn:Hp;
    apply validate_phone_conn in Hp; subst c0; [|now left].
  unfold customer_save, write. rewrite Hn.
  destruct (fault _ (db conn)) as [m|] eqn:Hf.
  - right. split; [|reflexivity]. eauto.
  - exists ci. auto.
Qed.

(** One turn of the loop on an unmarked connection: the element is saved
    and appended to the created rows; or the exception is caught, the
    savepoint restored and an entry appended to the errors; unless the
    exception left the connection marked, in which case restoring the
    savepoint is refused and its exception leaves the loop. *)
Lemma bulk_loop_step (idx : nat) (c : option CustomerInput)
  (rest : list (option CustomerInput)) (cr : list Customer)
  (er : list BulkErrorType) (conn : Connection) :
  needs_rollback conn = false ->
  bulk_loop fault idx (c :: rest) cr er conn
  = match bulk_item fault c conn with
    | (c1, Ok obj) =>
        if needs_rollback c1
        then (c1, Raise (Exception BROKEN_TRANSACTION_MSG))
        else bulk_loop fault (S idx) rest (cr ++ [obj]) er c1
    | (c1, Raise e) =>
        if needs_rollback c1
        then (c1, Raise (Exception BROKEN_TRANSACTION_MSG))
        else bulk_loop fault (S idx) rest cr (er ++ [bulk_error idx c e])
               (set_db (db conn) c1)
    end.
Proof.
  intros Hn. cbn [bulk_loop].
  unfold bind, try_except, savepoint, savepoint_commit, savepoint_rollback,
    query, execute, ret.
  rewrite Hn.
  destruct (bulk_item fault c conn) as [c1 [obj|[m|m]]];
    destruct (needs_rollback c1) eqn:Hn1; rewrite ?Hn1; reflexivity.
Qed.

Lemma set_db_same (c : Connection) : set_db (db c) c = c.
Proof. now destruct c. Qed.

(** The same turn, by cases on the outcome of the element. *)
Lemma bulk_loop_turn (c : option CustomerInput) (conn : Connection) :
  needs_rollback conn = false ->
  (exists obj,
      Some (customer_fields obj) = row_of_input c
      /\ needs_rollback (set_db (insert_customer obj (db conn)) conn) = false
      /\ bulk_item fault c conn
         = (set_db (insert_customer obj (db conn)) conn, Ok obj)
      /\ forall idx rest cr er,
           bulk_loop fault idx (c :: rest) cr er conn
           = bulk_loop fault (S idx) rest (cr ++ [obj]) er
               (set_db (insert_customer obj (db conn)) conn))
  \/ (exists e,
         bulk_item fault c conn = (conn, Raise e)
         /\ forall idx rest cr er,
              bulk_loop fault idx (c :: rest) cr er conn
              = bulk_loop fault (S idx) rest cr (er ++ [bulk_error idx c e])
                  conn)
  \/ ((exists w m, fault w (db conn) = Some m)
      /\ in_atomic_block conn = true
      /\ (exists e, bulk_item fault c conn
                    = (mark_for_rollback_on_error conn, Raise e))
      /\ forall idx rest cr er,
           bulk_loop fault idx (c :: rest) cr er conn
           = (mark_for_rollback_on_error conn,
              Raise (Exception BROKEN_TRANSACTION_MSG))).
Proof.
  intros Hn.
  pose proof (bulk_item_cases c conn Hn) as Hc.
  pose proof (fun idx rest cr er => bulk_loop_step idx c rest cr er conn Hn)
    as Hstep.
  destruct (bulk_item fault c conn) as [c1 [obj|e]].
  - destruct Hc as [ci [-> [_ [Hobj ->]]]]. left. exists obj.
    step_conn. rewrite Hn. repeat split; try reflexivity.
    + rewrite Hobj. reflexivity.
    + intros. rewrite Hstep. step_conn. now rewrite Hn.
  - destruct Hc as [->|[Hf ->]].
    + right. left. exists e. split; [reflexivity|].
      intros. now rewrite Hstep, Hn, set_db_same.
    + destruct (in_atomic_block conn) eqn:Ha.
      * right. right. split; [assumption|]. split; [reflexivity|].
        split; [eauto|].
        intros. rewrite Hstep.
        unfold mark_for_rollback_on_error. rewrite Ha. reflexivity.
      * right. left. exists e.
        assert (Hm : mark_for_rollback_on_error conn = conn).
        { unfold mark_for_rollback_on_error. rewrite Ha, Hn.
          destruct conn; simpl in *; now subst. }
        rewrite Hm. split; [reflexivity|].
        intros. rewrite Hstep. now rewrite Hm, Hn, set_db_same.
Qed.

(** A run of the loop from an unmarked connection either ends with the
    exception of a refused statement, after a write has failed, or returns,
    on an unmarked connection, two results that record in order the
    elements that were saved and those that failed. *)
Lemma bulk_loop_spec (cs : list (option CustomerInput)) :
  forall (idx : nat) (cr : list Customer) (er : list BulkErrorType)
         (conn : Connection),
    needs_rollback conn = false ->
    match bulk_loop fault idx cs cr er conn with
    | (c', Ok acc) =>
        needs_rollback c' = false
        /\ exists flags cr' er',
            acc = (cr ++ cr', er ++ er')
            /\ List.length flags = List.length cs
            /\ map (fun c => Some (customer_fields c)) cr'
               = map row_of_input (select flags cs)
            /\ map index er' = select (map negb flags) (seq idx (List.length cs))
            /\ map email er' = map getattr_email (select (map negb flags) cs)
    | (c', Raise e) =>
        e = Exception BROKEN_TRANSACTION_MSG
        /\ exists w s m, fault w s = Some m
    end.
Proof.
  induction cs as [|c rest IH]; intros idx cr er conn Hn.
  - simpl. unfold ret. split; [assumption|].
    exists [], [], []. rewrite !app_nil_r. auto.
  - destruct (bulk_loop_turn c conn Hn)
      as [[obj [Hrow [Hn1 [_ Hs]]]]|[[e [_ Hs]]|[[w [m Hf]] [_ [_ Hs]]]]];
      rewrite Hs.
    + specialize (IH (S idx) (cr ++ [obj]) er _ Hn1).
      destruct (bulk_loop fault (S idx) rest (cr ++ [obj]) er _)
        as [c' [acc|e]]; [|assumption].
      destruct IH as [Hn' [flags [cr' [er' [-> [Hlen [Hcr [Hidx Hem]]]]]]]].
      split; [assumption|].
      exists (true :: flags), (obj :: cr'), er'.
      rewrite <- app_assoc. simpl. rewrite Hcr, Hrow. auto.
    + specialize (IH (S idx) cr (er ++ [bulk_error idx c e]) conn Hn).
      destruct (bulk_loop fault (S idx) rest cr _ conn)
        as [c' [acc|e']]; [|assumption].
      destruct IH as [Hn' [flags [cr' [er' [-> [Hlen [Hcr [Hidx Hem]]]]]]]].
      split; [assumption|].
      exists (false :: flags), cr', (bulk_error idx c e :: er').
      rewrite <- app_assoc. simpl. rewrite Hidx, Hem. auto.
    + split; [reflexivity|]. eauto.
Qed.

(** A run that returns leaves the connection unmarked. *)
Lemma bulk_loop_ok_unmarked (cs : list (option CustomerInput)) (idx : nat)
  (cr : list Customer) (er : list BulkErrorType) (conn c' : Connection)
  (acc : list Customer * list BulkErrorType) :
  needs_rollback conn = false ->
  bulk_loop fault idx cs cr er conn = (c', Ok acc) ->
  needs_rollback c' = false.
Proof.
  intros Hn Hrun. pose proof (bulk_loop_spec cs idx cr er conn Hn) as Hs.
  rewrite Hrun in Hs. tauto.
Qed.

Lemma bulk_loop_app (pre post : list (option CustomerInput)) :
  forall (idx : nat) (cr : list Customer) (er : list BulkErrorType)
         (conn : Connection),
    needs_rollback conn = false ->
    bulk_loop fault idx (pre ++ post) cr er conn
    = match bulk_loop fault idx pre cr er conn with
      | (c1, Ok acc) =>
          bulk_loop fault (idx + List.length pre) post (fst acc) (snd acc) c1
      | (c1, Raise e) => (c1, Raise e)
      end.
Proof.
  induction pre as [|c rest IH]; intros idx cr er conn Hn.
  - simpl. unfold ret. now rewrite Nat.add_0_r.
  - rewrite <- app_comm_cons. simpl List.length. rewrite Nat.add_succ_r.
    destruct (bulk_loop_turn c conn Hn)
      as [[obj [_ [Hn1 [_ Hs]]]]|[[e [_ Hs]]|[_ [_ [_ Hs]]]]];
      rewrite !Hs.
    + now apply IH.
    + now apply IH.
    + reflexivity.
Qed.

(** The entries a run of the loop adds carry the positions it went
    through. *)
Lemma bulk_loop_new_errors (cs : list (option CustomerInput)) (idx : nat)
  (cr cr2 : list Customer) (er er2 : list BulkErrorType)
  (conn c' : Connection) :
  needs_rollback conn = false ->
  bulk_loop fault idx cs cr er conn = (c', Ok (cr2, er2)) ->
  exists cr' er',
    cr2 = cr ++ cr' /\ er2 = er ++ er'
    /\ forall b, In b er' -> (idx <= index b < idx + List.length cs)%nat.
Proof.
  intros Hn Hrun. pose proof (bulk_loop_spec cs idx cr er conn Hn) as Hs.
  rewrite Hrun in Hs.
  destruct Hs as [_ [flags [cr' [er' [Hacc [_ [_ [Hidx _]]]]]]]].
  inversion Hacc; subst. exists cr', er'.
  split; [reflexivity|]. split; [reflexivity|].
  intros b Hb. apply (in_map index) in Hb. rewrite Hidx in Hb.
  apply select_In, in_seq in Hb. lia.
Qed.

(** An exception that leaves the connection unmarked -- a validation
    error, the [AttributeError] of a null element -- is isolated: its entry
    is appended and the loop goes on with the elements that follow, on the
    connection as it was. *)
Lemma bulk_loop_failure_at (pre post : list (option CustomerInput))
  (c : option CustomerInput) (conn c_i : Connection) (cr : list Customer)
  (er : list BulkErrorType) (e : exn) :
  needs_rollback conn = false ->
  bulk_loop fault 0 pre [] [] conn = (c_i, Ok (cr, er)) ->
  bulk_item fault c c_i = (c_i, Raise e) ->
  bulk_loop fault 0 (pre ++ c :: post) [] [] conn
  = bulk_loop fault (S (List.length pre)) post cr
      (er ++ [bulk_error (List.length pre) c e]) c_i.
Proof.
  intros Hn Hpre Hitem.
  rewrite (bulk_loop_app pre (c :: post) 0 [] [] conn Hn), Hpre.
  simpl fst. simpl snd. simpl Nat.add.
  pose proof (bulk_loop_ok_unmarked _ _ _ _ _ _ _ Hn Hpre) as Hni.
  rewrite (bulk_loop_step _ c post cr er c_i Hni), Hitem, Hni.
  now rewrite set_db_same.
Qed.

(** A save that fails is not isolated: the connection is marked, the
    handler cannot restore its savepoint, and the loop ends with the
    exception of the refused statement. *)
Lemma bulk_loop_storage_fault_at (pre post : list (option CustomerInput))
  (c : option CustomerInput) (conn c_i c_x : Connection) (e : exn)
  (acc : list Customer * list BulkErrorType) :
  needs_rollback conn = false ->
  bulk_loop fault 0 pre [] [] conn = (c_i, Ok acc) ->
  bulk_item fault c c_i = (c_x, Raise e) ->
  needs_rollback c_x = true ->
  bulk_loop fault 0 (pre ++ c :: post) [] [] conn
  = (c_x, Raise (Exception BROKEN_TRANSACTION_MSG)).
Proof.
  intros Hn Hpre Hitem Hx.
  rewrite (bulk_loop_app pre (c :: post) 0 [] [] conn Hn), Hpre.
  simpl Nat.add.
  pose proof (bulk_loop_ok_unmarked _ _ _ _ _ _ _ Hn Hpre) as Hni.
  now rewrite (bulk_loop_step _ c post _ _ c_i Hni), Hitem, Hx.
Qed.

(** The rows of the store at the start of a run are still there when it
    returns: a turn of the loop appends a row or restores its savepoint. *)
Lemma bulk_loop_keeps_rows (cs : list (option CustomerInput)) :
  forall idx cr er conn c' acc,
    needs_rollback conn = false ->
    bulk_loop fault idx cs cr er conn = (c', Ok acc) ->
    forall x, In x (customers (db conn)) -> In x (customers (db c')).
Proof.
  induction cs as [|c rest IH]; intros idx cr er conn c' acc Hn.
  - simpl. unfold ret. intros H. inversion H; subst. auto.
  - destruct (bulk_loop_turn c conn Hn)
      as [[obj [_ [Hn1 [_ Hs]]]]|[[e [_ Hs]]|[_ [_ [_ Hs]]]]];
      rewrite Hs.
    + intros Hrun x Hx. apply (IH _ _ _ _ _ _ Hn1 Hrun).
      simpl. apply in_or_app. now left.
    + intros Hrun. exact (IH _ _ _ _ _ _ Hn Hrun).
    + discriminate.
Qed.

(** The bulk call as a request runs it: the loop inside its atomic block,
    committed when it returns on an unmarked connection. *)
Lemma bulk_create_customers_run (cs : list (option CustomerInput))
  (st : Store) :
  run (bulk_create_customers fault cs) st
  = match bulk_loop fault 0 cs [] [] (mkConnection st true false) with
    | (c', Ok acc) =>
        (if needs_rollback c' then st else db c',
         Ok (mkBulkCreateCustomers (fst acc) (snd acc)))
    | (_, Raise e) => (st, Raise e)
    end.
Proof.
  unfold run, bulk_create_customers, bind, atomic, ret. step_conn.
  destruct (bulk_loop fault 0 cs [] [] _) as [c' [acc|e]]; [|reflexivity].
  destruct (needs_rollback c'); reflexivity.
Qed.

End BulkProperties.

(** ** BulkCreateCustomers *)



(** X22. Exceptions that are not database errors are isolated: when the
    element at position i raises and leaves the connection unmarked, a call
    that returns reports it in exactly one entry, with the message of a
    validation error as it is and the message of any other exception after
    the tag "Unexpected error: ". *)
Lemma bulk_create_customers_isolates_unmarked_failures
  (fault : fault_model) (pre post : list (option CustomerInput))
  (c : option CustomerInput) (st st' : Store) (c_i : Connection)
  (cr : list Customer) (er : list BulkErrorType) (e : exn)
  (r : BulkCreateCustomers) :
  bulk_loop fault 0 pre [] [] (mkConnection st true false) = (c_i, Ok (cr, er)) ->
  bulk_item fault c c_i = (c_i, Raise e) ->
  run (bulk_create_customers fault (pre ++ c :: post)) st = (st', Ok r) ->
  filter (fun b => (index b =? List.length pre)%nat) (errors r)
  = [mkBulkError (List.length pre) (getattr_email c)
       match e with
       | GraphQLError m => m
       | Exception m => ("Unexpected error: " ++ m)%string
       end].
Proof.
  intros Hpre Hitem. rewrite bulk_create_customers_run.
  rewrite (bulk_loop_failure_at fault pre post c (mkConnection st true false)
             c_i cr er e eq_refl Hpre Hitem).
  pose proof (bulk_loop_ok_unmarked fault pre 0%nat [] []
                (mkConnection st true false) c_i (cr, er) eq_refl Hpre) as Hni.
  destruct (bulk_loop fault (S (List.length pre)) post cr _ c_i)
    as [c' [[cr2 er2]|e']] eqn:Hrun; [|discriminate].
  intros H. inversion H; subst st' r; clear H. simpl errors.
  apply (bulk_loop_new_errors fault) in Hrun; [|assumption].
  destruct Hrun as [cr' [er' [_ [-> Hgt]]]].
  apply (bulk_loop_new_errors fault) in Hpre; [|reflexivity].
  destruct Hpre as [cr0 [er0 [_ [Her Hlt]]]]. simpl in Her. subst er0.
  rewrite !filter_app, (filter_none _ er), (filter_none _ er').
  - simpl. now rewrite Nat.eqb_refl.
  - intros b Hb. apply Hgt in Hb. apply Nat.eqb_neq. lia.
  - intros b Hb. apply Hlt in Hb. apply Nat.eqb_neq. lia.
Qed.

(** X23. A save that fails at some position makes the whole call raise,
    with the exception of the statement the connection refuses, and nothing
    of the batch is kept. *)
Lemma bulk_create_customers_rejects_on_storage_fault
  (fault : fault_model) (pre post : list (option CustomerInput))
  (c : option CustomerInput) (st : Store) (c_i c_x : Connection) (e : exn)
  (acc : list Customer * list BulkErrorType) :
  bulk_loop fault 0 pre [] [] (mkConnection st true false) = (c_i, Ok acc) ->
  bulk_item fault c c_i = (c_x, Raise e) ->
  needs_rollback c_x = true ->
  run (bulk_create_customers fault (pre ++ c :: post)) st
  = (st, Raise (Exception BROKEN_TRANSACTION_MSG)).
Proof.
  intros Hpre Hitem Hx. rewrite bulk_create_customers_run.
  now rewrite (bulk_loop_storage_fault_at fault pre post c
                 (mkConnection st true false) c_i c_x e acc
                 eq_refl Hpre Hitem Hx).
Qed.

(** C4. A batch of three valid elements where the statement saving the
    second fails with "database is locked": the failed save marks the atomic
    block, the handler's [savepoint_rollback] is refused, and its exception
    leaves the loop and the block -- the call raises, the row of the first
    element is rolled back and the third element is not processed.  A null
    element and a validation error, in contrast, are reported and the batch
    goes on. *)
Theorem bulk_create_customers_storage_fault_escapes :
  run (bulk_create_customers (locked_on_save "B") three_batch) empty_store
  = (empty_store, Raise (Exception BROKEN_TRANSACTION_MSG))
  /\ run (bulk_create_customers no_fault mixed_batch) empty_store
     = (mkStore [mkCustomer 1 "A" "a@x.com" ""; mkCustomer 2 "C" "c@x.com" ""]
          [] [] [],
        Ok (mkBulkCreateCustomers
              [mkCustomer 1 "A" "a@x.com" ""; mkCustomer 2 "C" "c@x.com" ""]
              [mkBulkError 1 None
                 "Unexpected error: 'NoneType' object has no attribute 'name'";
               mkBulkError 2 (Some "b@x.com")
                 "Invalid phone format. Use +1234567890 or 123-456-7890."])).
Proof. vm_compute. split; reflexivity. Qed.

(** ** Decimal sums *)

Module DecFacts.
Import Dec.

Lemma round_exact (c e : Z) :
  Z.abs c < 10 ^ prec -> round c e = mkDecimal c e.
Proof.
  intros H. unfold round. apply Z.ltb_lt in H. now rewrite H.
Qed.

Lemma add_exact (a b : Decimal) :
  let e := Z.min (exp a) (exp b) in
  Z.abs (units_at e a + units_at e b) < 10 ^ prec ->
  add a b = mkDecimal (units_at e a + units_at e b) e.
Proof.
  intros e H. unfold add. fold e. now apply round_exact.
Qed.

(** Going to a finer unit multiplies the count by a power of ten. *)
Lemma units_at_rescale (s e : Z) (d : Decimal) :
  s <= e -> e <= exp d -> units_at s d = units_at e d * 10 ^ (e - s).
Proof.
  intros Hs He. unfold units_at.
  replace (exp d - s) with ((exp d - e) + (e - s)) by lia.
  rewrite Z.pow_add_r by lia. ring.
Qed.

Lemma fold_min_le_init (l : list Z) (a : Z) : fold_left Z.min l a <= a.
Proof.
  revert a. induction l as [|x r IH]; intros a; simpl; [lia|].
  specialize (IH (Z.min a x)). lia.
Qed.

Lemma total_abs_units_nonneg (s : Z) (l : list Decimal) :
  0 <= total_abs_units s l.
Proof.
  unfold total_abs_units. induction l as [|d r IH]; simpl; lia.
Qed.

(** As long as the running total stays within the precision, the fold adds
    exactly, on the smallest exponent it meets. *)
Lemma fold_add_exact (ps : list Decimal) :
  forall (acc : Decimal) (s : Z),
    s = fold_left Z.min (map exp ps) (exp acc) ->
    Z.abs (units_at s acc) + total_abs_units s ps < 10 ^ prec ->
    fold_left add ps acc = mkDecimal (units_at s acc + total_units s ps) s.
Proof.
  induction ps as [|p r IH]; intros acc s Hs Hb.
  - simpl in *. subst s. unfold units_at, total_units. simpl.
    rewrite Z.sub_diag, Z.mul_1_r, Z.add_0_r. now destruct acc.
  - simpl in Hs. simpl fold_left.
    set (e := Z.min (exp acc) (exp p)) in *.
    assert (Hse : s <= e) by (subst s; apply fold_min_le_init).
    assert (Hea : e <= exp acc) by (unfold e; lia).
    assert (Hep : e <= exp p) by (unfold e; lia).
    pose proof (total_abs_units_nonneg s r) as Hnn.
    assert (Hsum : units_at s acc + units_at s p
                   = (units_at e acc + units_at e p) * 10 ^ (e - s)).
    { rewrite (units_at_rescale s e acc), (units_at_rescale s e p) by lia.
      ring. }
    assert (Hpow : 1 <= 10 ^ (e - s)).
    { pose proof (Z.pow_pos_nonneg 10 (e - s)). lia. }
    change (total_abs_units s (p :: r))
      with (Z.abs (units_at s p) + total_abs_units s r) in Hb.
    assert (Hstep : Z.abs (units_at e acc + units_at e p) < 10 ^ prec).
    { assert (Z.abs (units_at e acc + units_at e p)
              <= Z.abs (units_at s acc + units_at s p)).
      { rewrite Hsum, Z.abs_mul. rewrite (Z.abs_eq (10 ^ (e - s))) by lia.
        pose proof (Z.abs_nonneg (units_at e acc + units_at e p)). nia. }
      lia. }
    rewrite (add_exact acc p Hstep). fold e.
    rewrite (IH (mkDecimal (units_at e acc + units_at e p) e) s).
    + f_equal.
      change (total_units s (p :: r)) with (units_at s p + total_units s r).
      unfold units_at at 1. cbn [coef exp]. rewrite <- Hsum. ring.
    + exact Hs.
    + unfold units_at at 1. cbn [coef exp]. rewrite <- Hsum. lia.
Qed.

Lemma sum_exact (ps : list Decimal) :
  total_abs_units (scale ps) ps < 10 ^ prec ->
  sum ps = mkDecimal (total_units (scale ps) ps) (scale ps).
Proof.
  intros H. unfold sum.
  rewrite (fold_add_exact ps zero_00 (scale ps)).
  - unfold units_at at 1. cbn [coef zero_00]. now rewrite Z.mul_0_l.
  - reflexivity.
  - unfold units_at at 1. cbn [coef zero_00]. now rewrite Z.mul_0_l.
Qed.

Lemma fold_min_perm (l l' : list Z) :
  Permutation l l' -> forall a, fold_left Z.min l a = fold_left Z.min l' a.
Proof.
  induction 1 as [|x l l' _ IH|x y l|l l' l'' _ IH1 _ IH2]; intros a; simpl.
  - reflexivity.
  - apply IH.
  - f_equal. lia.
  - now rewrite IH1.
Qed.

Lemma scale_perm (ps ps' : list Decimal) :
  Permutation ps ps' -> scale ps = scale ps'.
Proof.
  intros H. unfold scale. apply fold_min_perm. now apply Permutation_map.
Qed.

Lemma fold_add_perm (l l' : list Z) :
  Permutation l l' -> fold_right Z.add 0 l = fold_right Z.add 0 l'.
Proof.
  induction 1; simpl; lia.
Qed.

Lemma total_units_perm (s : Z) (ps ps' : list Decimal) :
  Permutation ps ps' -> total_units s ps = total_units s ps'.
Proof.
  intros H. unfold total_units. apply fold_add_perm. now apply Permutation_map.
Qed.

Lemma total_abs_units_perm (s : Z) (ps ps' : list Decimal) :
  Permutation ps ps' -> total_abs_units s ps = total_abs_units s ps'.
Proof.
  intros H. unfold total_abs_units. apply fold_add_perm.
  now apply Permutation_map.
Qed.

(** Within the precision the sum does not depend on the order of the
    terms. *)
Lemma sum_perm (ps ps' : list Decimal) :
  total_abs_units (scale ps) ps < 10 ^ prec ->
  Permutation ps ps' -> sum ps' = sum ps.
Proof.
  intros Hb Hp. rewrite (sum_exact ps Hb), (sum_exact ps').
  - now rewrite <- (scale_perm ps ps' Hp), (total_units_perm _ ps ps' Hp).
  - now rewrite <- (scale_perm ps ps' Hp), <- (total_abs_units_perm _ ps ps' Hp).
Qed.

Lemma fold_min_const (l : list Z) (a : Z) :
  (forall x, In x l -> x = a) -> fold_left Z.min l a = a.
Proof.
  induction l as [|x r IH]; simpl; intros H; [reflexivity|].
  rewrite (H x (or_introl eq_refl)), Z.min_id. apply IH.
  intros y Hy. apply H. now right.
Qed.

(** Prices with two decimals whose coefficients are bounded by [B], as a
    decimal column holds them, stay within the precision as long as their
    number times [B] does. *)
Lemma cents_within_precision (ps : list Decimal) (B : Z) :
  (forall p, In p ps -> exp p = -2 /\ Z.abs (coef p) <= B) ->
  Z.of_nat (List.length ps) * B < 10 ^ prec ->
  scale ps = -2 /\ total_abs_units (scale ps) ps < 10 ^ prec.
Proof.
  intros Hps Hb.
  assert (Hs : scale ps = -2).
  { unfold scale. apply fold_min_const. intros x Hx.
    apply in_map_iff in Hx. destruct Hx as [p [<- Hp]]. now apply Hps. }
  split; [assumption|]. rewrite Hs.
  assert (Hle : total_abs_units (-2) ps <= Z.of_nat (List.length ps) * B).
  { clear Hb Hs. induction ps as [|p r IH].
    - unfold total_abs_units. simpl. lia.
    - change (total_abs_units (-2) (p :: r))
        with (Z.abs (units_at (-2) p) + total_abs_units (-2) r).
      destruct (Hps p (or_introl eq_refl)) as [He Hc].
      assert (Hu : units_at (-2) p = coef p).
      { unfold units_at. rewrite He. simpl. lia. }
      rewrite Hu.
      assert (IH' : total_abs_units (-2) r <= Z.of_nat (List.length r) * B).
      { apply IH. intros q Hq. apply Hps. now right. }
      simpl List.length. rewrite Nat2Z.inj_succ. lia. }
  lia.
Qed.

End DecFacts.

(** ** Order totals *)

(** Beyond the 28 digits of the context an addition rounds. *)
Example sum_rounds_beyond_precision :
  Dec.sum [mkDecimal (10 ^ 28) 0; mkDecimal 1 (-2)] = mkDecimal (10 ^ 27) 1.
Proof. vm_compute. reflexivity. Qed.

(** C7. The total of a created order is the exact sum of the prices of the
    products it is linked to, as they are in the store when the order is
    created: its exponent is the smallest exponent among the prices and
    "0.00", its coefficient the integer sum of the prices counted in that
    unit; and summing the prices in any other order gives the same total.
    The sum is taken in Python's default decimal context, hence for prices
    whose total stays below its 28 digits. *)
Theorem create_order_total_exact (fault : fault_model) (cid : string)
  (ids : list (option string)) (od : option Z) (now : Z)
  (st st' : Store) (r : CreateOrder) :
  run (create_order fault cid ids od now) st = (st', Ok r) ->
  let prices := map p_price (linked_products (o_id (co_order r)) st') in
  Dec.total_abs_units (Dec.scale prices) prices < 10 ^ Dec.prec ->
  In (co_order r) (orders st')
  /\ products st' = products st
  /\ o_total_amount (co_order r)
     = mkDecimal (Dec.total_units (Dec.scale prices) prices) (Dec.scale prices)
  /\ forall prices',
       Permutation prices prices' -> Dec.sum prices' = o_total_amount (co_order r).
Proof.
  intros Hok. apply create_order_ok_inv in Hok.
  destruct Hok as [cust [pks [_ [_ [_ [Ho Hst]]]]]].
  subst st'. rewrite linked_products_set_links.
  intros prices Hb.
  assert (Htot : o_total_amount (co_order r) = Dec.sum prices)
    by (now rewrite Ho).
  split; [|split; [|split]].
  - simpl. apply in_or_app. right. now left.
  - reflexivity.
  - rewrite Htot. now apply DecFacts.sum_exact.
  - intros prices' Hp. rewrite Htot. now apply DecFacts.sum_perm.
Qed.

Lemma create_order_total_exact_witness :
  o_total_amount laptop_phone_order = mkDecimal 149998 (-2)
  /\ Dec.sum [mkDecimal 49999 (-2); mkDecimal 99999 (-2)]
     = o_total_amount laptop_phone_order.
Proof.
  assert (Hrun : run (create_order no_fault "1" [Some "1"; Some "2"] None 0)
                    seed_store
                 = (seed_store_with_order,
                    Ok (mkCreateOrder true laptop_phone_order "Order created.")))
    by (vm_compute; reflexivity).
  destruct (create_order_total_exact no_fault "1" [Some "1"; Some "2"] None 0
              seed_store seed_store_with_order
              (mkCreateOrder true laptop_phone_order "Order created.") Hrun)
    as [_ [_ [Htotal Horder]]].
  - vm_compute. reflexivity.
  - split.
    + exact Htotal.
    + apply Horder. apply perm_swap.
Defined.

(** The "order total correctness" example: 999.99 + 499.99 is 1499.98. *)
Example create_order_laptop_phone :
  run (create_order no_fault "1" [Some "1"; Some "2"] None 0) seed_store
  = (seed_store_with_order,
     Ok (mkCreateOrder true laptop_phone_order "Order created."))
  /\ DecParse.parse "999.99" = Some (Finite (mkDecimal 99999 (-2)))
  /\ DecParse.parse "499.99" = Some (Finite (mkDecimal 49999 (-2)))
  /\ DecParse.parse "1499.98" = Some (Finite (o_total_amount laptop_phone_order)).
Proof. vm_compute. repeat split. Qed.

(** ** validate_price_and_stock *)



(** A price that is not a number is read without error but cannot be
    compared, and a stock alone defaults: further evaluations. *)
Example validate_price_and_stock_cases :
  validate_price_and_stock "19.99" None = Ok (Finite (mkDecimal 1999 (-2)), 0)
  /\ validate_price_and_stock "-3" None
     = Raise (GraphQLError "Price must be positive.")
  /\ validate_price_and_stock "abc" (Some (-1))
     = Raise (GraphQLError "Price must be a valid decimal number.")
  /\ validate_price_and_stock "nan" None
     = Raise (Exception "[<class 'decimal.InvalidOperation'>]")
  /\ validate_price_and_stock "inf" None = Ok (Infinity false, 0).
Proof. vm_compute. repeat split. Qed.

(** ** Email uniqueness *)

Lemma iexact_sym (a b : string) : PyStr.iexact a b = PyStr.iexact b a.
Proof. unfold PyStr.iexact. apply String.eqb_sym. Qed.




Section CustomerProperties.

Variable fault : fault_model.

(** [create_customer] as a request runs it, in autocommit mode. *)
Lemma create_customer_run (name e : string) (phone : option string)
  (st : Store) :
  run (create_customer fault name e phone) st
  = if email_exists e st
    then (st, Raise (GraphQLError "Email already exists."))
    else
      match validate_phone phone (connect st) with
      | (_, Raise x) => (st, Raise x)
      | (_, Ok _) =>
          match fault (SaveCustomer (PyStr.strip name) (PyStr.strip e)
                         (PyStr.or_empty phone)) st with
          | Some m => (st, Raise (Exception m))
          | None =>
              let c := mkCustomer (next_id (map c_id (customers st)))
                         (PyStr.strip name) (PyStr.strip e)
                         (PyStr.or_empty phone) in
              (insert_customer c st,
               Ok (mkCreateCustomer true "Customer created." c))
          end
      end.
Proof.
  unfold run, create_customer. unfold bind at 1. unfold validate_email_unique.
  unfold bind at 1. unfold query. step_conn.
  destruct (email_exists e st); [reflexivity|].
  unfold ret at 1. unfold bind at 1.
  destruct (validate_phone phone (connect st)) as [c0 [[]|x]] eqn:Hp;
    apply validate_phone_conn in Hp; subst c0; [|reflexivity].
  unfold bind, customer_save, write, ret. step_conn.
  destruct (fault _ st); reflexivity.
Qed.

(** X9. An email that differs from a stored one only in case is refused
    with "Email already exists.", and nothing is written. *)
Lemma create_customer_case_variant_rejected (name e : string)
  (phone : option string) (st : Store) (c : Customer) :
  In c (customers st) -> PyStr.lower (c_email c) = PyStr.lower e ->
  run (create_customer fault name e phone) st
  = (st, Raise (GraphQLError "Email already exists.")).
Proof.
  intros Hin Hl. rewrite create_customer_run.
  replace (email_exists e st) with true; [reflexivity|].
  symmetry. unfold email_exists. apply existsb_exists. exists c.
  split; [assumption|]. unfold PyStr.iexact. rewrite Hl. apply String.eqb_refl.
Qed.

(** X8. A [create_customer] call that raises, for a validation error or
    for an error of the INSERT, leaves the store as it was. *)
Lemma create_customer_error_writes_nothing (name e : string)
  (phone : option string) (st st' : Store) (x : exn) :
  run (create_customer fault name e phone) st = (st', Raise x) -> st' = st.
Proof.
  rewrite create_customer_run.
  destruct (email_exists e st); [intros H; now inversion H|].
  destruct (validate_phone phone (connect st)) as [c0 [[]|y]];
    [|intros H; now inversion H].
  destruct (fault _ st); [intros H; now inversion H|discriminate].
Qed.


(** X24. [create_customer] does not look at the name: a name that is
    empty or made of blanks is accepted whenever the email is not stored
    yet, the phone passes and the save succeeds, and the row is saved with an
    empty name. *)
Lemma create_customer_accepts_blank_name (name e : string)
  (phone : option string) (st : Store) :
  PyStr.strip name = "" ->
  email_exists e st = false ->
  validate_phone phone (connect st) = (connect st, Ok tt) ->
  fault (SaveCustomer "" (PyStr.strip e) (PyStr.or_empty phone)) st = None ->
  exists c,
    c_name c = "" /\
    run (create_customer fault name e phone) st
    = (insert_customer c st, Ok (mkCreateCustomer true "Customer created." c)).
Proof.
  intros Hb He Hp Hf. rewrite create_customer_run, He, Hp, Hb, Hf.
  eexists. split; [|reflexivity]. reflexivity.
Qed.

(** In the bulk loop the check of an element sees the rows saved for the
    elements before it: an element whose name and email are not empty and
    whose email is stored already, in any case, yields the "Email already
    exists." error. *)
Lemma bulk_item_duplicate_email (c : CustomerInput) (conn : Connection) :
  needs_rollback conn = false ->
  PyStr.truthy (ci_name c) = true -> PyStr.truthy (ci_email c) = true ->
  email_exists (ci_email c) (db conn) = true ->
  bulk_item fault (Some c) conn
  = (conn, Raise (GraphQLError "Email already exists.")).
Proof.
  intros Hc Hn He Hx. unfold bulk_item. rewrite Hn, He. simpl.
  unfold bind at 1. unfold validate_email_unique. unfold bind at 1.
  unfold query. now rewrite Hc, Hx.
Qed.



(** X20. Two elements with the same email in one batch: once an element
    is saved, a later element whose name and email are not empty and whose
    email equals the saved one ignoring case is reported with
    "Email already exists.", in every call that returns. *)
Lemma bulk_later_duplicate_rejected
  (pre mid post : list (option CustomerInput)) (ci cj : CustomerInput)
  (st st' : Store) (c1 c2 : Connection) (cr1 : list Customer)
  (er1 : list BulkErrorType) (obj : Customer) (r : BulkCreateCustomers) :
  bulk_loop fault 0 pre [] [] (mkConnection st true false)
  = (c1, Ok (cr1, er1)) ->
  bulk_item fault (Some ci) c1 = (c2, Ok obj) ->
  PyStr.truthy (ci_name cj) = true -> PyStr.truthy (ci_email cj) = true ->
  PyStr.iexact (c_email obj) (ci_email cj) = true ->
  run (bulk_create_customers fault (pre ++ Some ci :: mid ++ Some cj :: post)) st
  = (st', Ok r) ->
  In obj (created r)
  /\ In (mkBulkError (List.length (pre ++ Some ci :: mid))
           (Some (ci_email cj)) "Email already exists.") (errors r).
Proof.
  intros Hpre Hi Hn He Hx.
  set (conn := mkConnection st true false) in *.
  pose proof (bulk_loop_ok_unmarked fault pre 0%nat [] [] conn c1 (cr1, er1)
                eq_refl Hpre) as Hn1.
  pose proof (bulk_item_cases fault (Some ci) c1 Hn1) as Hc.
  rewrite Hi in Hc. destruct Hc as [ci' [Hci [_ [_ Hc2]]]].
  assert (Hn2 : needs_rollback c2 = false) by (subst c2; exact Hn1).
  rewrite bulk_create_customers_run. fold conn.
  replace (pre ++ Some ci :: mid ++ Some cj :: post)
    with ((pre ++ Some ci :: mid) ++ Some cj :: post)
    by (now rewrite <- app_assoc).
  rewrite (bulk_loop_app fault (pre ++ Some ci :: mid) (Some cj :: post)
             0 [] [] conn eq_refl).
  rewrite (bulk_loop_app fault pre (Some ci :: mid) 0 [] [] conn eq_refl), Hpre.
  simpl fst. simpl snd. simpl Nat.add.
  rewrite (bulk_loop_step fault _ (Some ci) mid cr1 er1 c1 Hn1), Hi, Hn2.
  destruct (bulk_loop fault (S (List.length pre)) mid (cr1 ++ [obj]) er1 c2)
    as [cj0 [[crj erj]|e]] eqn:Hmid; [|discriminate].
  simpl fst. simpl snd.
  pose proof (bulk_loop_ok_unmarked fault _ _ _ _ _ _ _ Hn2 Hmid) as Hnj.
  assert (Hseen : email_exists (ci_email cj) (db cj0) = true).
  { unfold email_exists. apply existsb_exists. exists obj.
    split; [|assumption].
    apply (bulk_loop_keeps_rows fault mid _ _ _ _ _ _ Hn2 Hmid).
    subst c2. simpl. apply in_or_app. right. now left. }
  rewrite (bulk_loop_step fault _ (Some cj) post crj erj cj0 Hnj).
  rewrite (bulk_item_duplicate_email cj cj0 Hnj Hn He Hseen), Hnj, set_db_same.
  destruct (bulk_loop_new_errors fault mid _ _ _ _ _ _ _ Hn2 Hmid)
    as [crm [erm [-> [-> _]]]].
  match goal with
  | |- context [bulk_loop fault ?i post ?a ?b cj0] =>
      destruct (bulk_loop fault i post a b cj0) as [cz [[crz erz]|e]] eqn:Hpost;
        [|discriminate];
      destruct (bulk_loop_new_errors fault post i a crz b erz cj0 cz Hnj Hpost)
        as [crp [erp [-> [-> _]]]]
  end.
  intros H. inversion H; subst st' r; clear H. simpl. split.
  - apply in_or_app. left. apply in_or_app. left.
    apply in_or_app. right. now left.
  - apply in_or_app. left. apply in_or_app. right.
    rewrite length_app. simpl. rewrite Nat.add_succ_r.
    now left.
Qed.

End CustomerProperties.

(** ** Evaluations *)

(** The "bulk partial success" batch of the specification. *)
Example bulk_create_customers_partial_batch :
  run (bulk_create_customers no_fault partial_batch) empty_store
  = (mkStore [mkCustomer 1 "A" "a@x.com" ""] [] [] [],
     Ok (mkBulkCreateCustomers
           [mkCustomer 1 "A" "a@x.com" ""]
           [mkBulkError 1 (Some "b@x.com") "Both name and email are required.";
            mkBulkError 2 (Some "a@x.com") "Email already exists."])).
Proof. vm_compute. reflexivity. Qed.

(** C2. A batch of two valid elements with the same email, written with
    a leading blank: the check of the second compares the text as supplied
    with the trimmed text saved for the first, finds no match, and both are
    created with the same stored email.  With an exact unique index on the
    column the save of the second fails instead, which is no duplicate-email
    error either (and makes the whole call raise). *)
Theorem bulk_create_customers_blank_led_duplicate :
  run (bulk_create_customers no_fault blank_led_batch) empty_store
  = (mkStore [mkCustomer 1 "A" "a@x.com" ""; mkCustomer 2 "B" "a@x.com" ""]
       [] [] [],
     Ok (mkBulkCreateCustomers
           [mkCustomer 1 "A" "a@x.com" ""; mkCustomer 2 "B" "a@x.com" ""] []))
  /\ run (bulk_create_customers unique_email_index blank_led_batch) empty_store
     = (empty_store, Raise (Exception BROKEN_TRANSACTION_MSG)).
Proof. vm_compute. split; reflexivity. Qed.

(** C3. On the seeded store, whose emails are pairwise distinct ignoring
    case, creating a customer with the email of Alice in upper case and a
    leading blank succeeds -- also under an exact unique index -- and leaves
    two rows whose emails differ only in case. *)
Theorem create_customer_blank_led_email_breaks_uniqueness :
  emails_unique seed_store = true
  /\ run (create_customer no_fault "Eve" " ALICE@example.com" None) seed_store
     = (insert_customer (mkCustomer 3 "Eve" "ALICE@example.com" "") seed_store,
        Ok (mkCreateCustomer true "Customer created."
              (mkCustomer 3 "Eve" "ALICE@example.com" "")))
  /\ run (create_customer unique_email_index "Eve" " ALICE@example.com" None)
       seed_store
     = run (create_customer no_fault "Eve" " ALICE@example.com" None) seed_store
  /\ emails_unique
       (insert_customer (mkCustomer 3 "Eve" "ALICE@example.com" "") seed_store)
     = false
  /\ PyStr.iexact "alice@example.com" "ALICE@example.com" = true.
Proof. vm_compute. repeat split. Qed.

(** C5. A name made of blanks is not refused by [create_customer]: on
    the seeded store the call succeeds and saves a row with an empty name. *)
Theorem create_customer_blank_name_is_saved :
  PyStr.strip "   " = ""
  /\ run (create_customer no_fault "   " "carol@example.com" None) seed_store
     = (insert_customer (mkCustomer 3 "" "carol@example.com" "") seed_store,
        Ok (mkCreateCustomer true "Customer created."
              (mkCustomer 3 "" "carol@example.com" "")))
  /\ run (create_customer no_fault "" "carol@example.com" None) seed_store
     = (insert_customer (mkCustomer 3 "" "carol@example.com" "") seed_store,
        Ok (mkCreateCustomer true "Customer created."
              (mkCustomer 3 "" "carol@example.com" ""))).
Proof. vm_compute. repeat split. Qed.

(* ================================================================== *)
(** * Further properties *)

(** ** validate_phone *)


Lemma chars_app (a b : string) :
  PyStr.chars (a ++ b)%string = PyStr.chars a ++ PyStr.chars b.
Proof.
  unfold PyStr.chars. induction a as [|c r IH]; simpl; [reflexivity|].
  now rewrite IH.
Qed.





(** X2. The pattern ends in [$], which also matches before a final line
    feed: every number in one of the two formats is accepted as well when a
    line feed follows it. *)
Theorem validate_phone_accepts_trailing_newline (p : string)
  (c : Connection) :
  PhoneRe.alternatives (PyStr.chars p) = true ->
  validate_phone (Some (p ++ String PhoneRe.newline "")%string) c = (c, Ok tt).
Proof.
  intros Hp. unfold validate_phone.
  assert (Hm : PhoneRe.matches (p ++ String PhoneRe.newline "")%string = true).
  { unfold PhoneRe.matches. rewrite chars_app.
    change (PyStr.chars (String PhoneRe.newline "")) with [PhoneRe.newline].
    rewrite rev_app_distr. cbn [rev app]. rewrite rev_involutive, Hp.
    rewrite Ascii.eqb_refl. apply orb_true_r. }
  rewrite Hm. now rewrite andb_false_r.
Qed.

Lemma validate_phone_accepts_trailing_newline_witness :
  validate_phone (Some ("123-456-7890" ++ String PhoneRe.newline "")%string)
    (connect seed_store)
  = (connect seed_store, Ok tt).
Proof.
  apply (validate_phone_accepts_trailing_newline "123-456-7890"
           (connect seed_store)).
  vm_compute. reflexivity.
Defined.

(** ** validate_price_and_stock, further *)

(** What the validator has checked when it returns. *)
Lemma validate_price_and_stock_ok_checked (price : string)
  (stock : option Z) (d : PyDecimal) (s : Z) :
  validate_price_and_stock price stock = Ok (d, s) ->
  le_zero d = Ok false /\ 0 <= s.
Proof.
  unfold validate_price_and_stock.
  destruct (DecParse.parse price) as [q|]; [|discriminate].
  destruct (le_zero q) as [[]|e] eqn:Hz; try discriminate.
  destruct stock as [x|].
  - destruct (x <? 0) eqn:Hx; [discriminate|].
    intros H. inversion H; subst. apply Z.ltb_ge in Hx. auto.
  - intros H. inversion H; subst. split; [assumption|lia].
Qed.

(** X3. Whatever [validate_price_and_stock] returns is a valid pair: the
    price is the exact reading of the text and is positive (a finite number
    with a positive coefficient, or plus infinity, which the comparison lets
    through), and the stock is the one given, not negative, or 0 when none
    was given. *)
Theorem validate_price_and_stock_returns_valid (price : string)
  (stock : option Z) (d : PyDecimal) (s : Z) :
  validate_price_and_stock price stock = Ok (d, s) ->
  DecParse.parse price = Some d
  /\ (d = Infinity false \/ exists f, d = Finite f /\ 0 < coef f)
  /\ 0 <= s
  /\ s = match stock with Some x => x | None => 0 end.
Proof.
  unfold validate_price_and_stock.
  destruct (DecParse.parse price) as [q|]; [|discriminate].
  destruct (le_zero q) as [[]|e] eqn:Hz; try discriminate.
  assert (Hq : q = Infinity false \/ exists f, q = Finite f /\ 0 < coef f).
  { destruct q as [f|[]|]; simpl in Hz; try discriminate.
    - right. exists f. split; [reflexivity|].
      inversion Hz as [Hc]. apply Z.leb_gt in Hc. lia.
    - now left. }
  destruct stock as [x|].
  - destruct (x <? 0) eqn:Hx; [discriminate|].
    intros H. inversion H; subst. apply Z.ltb_ge in Hx. auto.
  - intros H. inversion H; subst. repeat split; auto. lia.
Qed.

Lemma validate_price_and_stock_returns_valid_witness :
  DecParse.parse "0.5" = Some (Finite (mkDecimal 5 (-1)))
  /\ (Finite (mkDecimal 5 (-1)) = Infinity false
      \/ exists f, Finite (mkDecimal 5 (-1)) = Finite f /\ 0 < coef f)
  /\ 0 <= 0
  /\ 0 = 0.
Proof.
  apply (validate_price_and_stock_returns_valid "0.5" None
           (Finite (mkDecimal 5 (-1))) 0).
  vm_compute. reflexivity.
Defined.

(** X4. The validator raises an exception that is not a [GraphQLError]
    exactly when the price text reads as a NaN: the comparison [price <= 0]
    is then an invalid operation, which the [except] around the conversion
    does not cover.  Every other failure is one of its three validation
    errors. *)
Theorem validate_price_and_stock_exceptions (price : string)
  (stock : option Z) :
  ((exists m, validate_price_and_stock price stock = Raise (Exception m))
   <-> DecParse.parse price = Some NaN)
  /\ forall m, validate_price_and_stock price stock = Raise (GraphQLError m) ->
       In m ["Price must be a valid decimal number.";
             "Price must be positive.";
             "Stock cannot be negative."].
Proof.
  unfold validate_price_and_stock.
  destruct (DecParse.parse price) as [[f|n|]|].
  - simpl. destruct (coef f <=? 0).
    + split; [split; [intros [m H]|intros H]; discriminate|].
      intros m H. inversion H. simpl. tauto.
    + destruct stock as [x|]; [destruct (x <? 0)|];
        (split; [split; [intros [m H]|intros H]; discriminate|]);
        intros m H; inversion H; simpl; tauto.
  - simpl. destruct n.
    + split; [split; [intros [m H]|intros H]; discriminate|].
      intros m H. inversion H. simpl. tauto.
    + destruct stock as [x|]; [destruct (x <? 0)|];
        (split; [split; [intros [m H]|intros H]; discriminate|]);
        intros m H; inversion H; simpl; tauto.
  - simpl. split; [split; [reflexivity|eauto]|]. discriminate.
  - split; [split; [intros [m H]|intros H]; discriminate|].
    intros m H. inversion H. simpl. tauto.
Qed.

Lemma validate_price_and_stock_exceptions_witness :
  (exists m, validate_price_and_stock "nan" (Some 5) = Raise (Exception m))
  /\ In "Stock cannot be negative."
       ["Price must be a valid decimal number.";
        "Price must be positive.";
        "Stock cannot be negative."].
Proof.
  destruct (validate_price_and_stock_exceptions "nan" (Some 5)) as [Hnan _].
  destruct (validate_price_and_stock_exceptions "19.99" (Some (-1))) as [_ Hg].
  split.
  - apply Hnan. reflexivity.
  - apply Hg. reflexivity.
Defined.

(** ** CreateProduct *)

Section ProductProperties.

Variable product_insert : string -> PyDecimal -> Z -> Store -> Decimal + string.

(** [create_product] as a request runs it, in autocommit mode. *)
Lemma create_product_run (name price : string) (stock : option Z)
  (st : Store) :
  run (create_product product_insert name price stock) st
  = match validate_price_and_stock price stock with
    | Raise e => (st, Raise e)
    | Ok (d, s) =>
        if negb (PyStr.truthy (PyStr.strip name))
        then (st, Raise (GraphQLError "Product name is required."))
        else
          match product_insert (PyStr.strip name) d s st with
          | inr m => (st, Raise (Exception m))
          | inl stored =>
              let pk := next_id (map p_id (products st)) in
              (insert_product (mkProduct pk (PyStr.strip name) stored s) st,
               Ok (mkCreateProduct true
                     (mkProductInstance pk (PyStr.strip name) d s)
                     "Product created."))
          end
    end.
Proof.
  unfold run, create_product, bind, lift.
  destruct (validate_price_and_stock price stock) as [[d s]|e]; [|reflexivity].
  destruct (negb (PyStr.truthy (PyStr.strip name))); [reflexivity|].
  unfold product_save, ret. step_conn.
  destruct (product_insert _ _ _ st); reflexivity.
Qed.

End ProductProperties.

(** X5. [create_product] never saves a product whose name is empty or
    made of blanks: such a call raises -- the error of the price and stock
    validation if there is one, "Product name is required." otherwise -- and
    leaves the store as it was, whatever the storage does. *)
Theorem create_product_rejects_blank_name
  (product_insert : string -> PyDecimal -> Z -> Store -> Decimal + string)
  (name price : string) (stock : option Z) (st : Store) :
  PyStr.strip name = "" ->
  run (create_product product_insert name price stock) st
  = (st, Raise match validate_price_and_stock price stock with
               | Raise e => e
               | Ok _ => GraphQLError "Product name is required."
               end).
Proof.
  intros Hb. rewrite create_product_run, Hb.
  destruct (validate_price_and_stock price stock) as [[d s]|e]; reflexivity.
Qed.

Lemma create_product_rejects_blank_name_witness :
  run (create_product plain_price_column "   " "19.99" (Some 5)) seed_store
  = (seed_store, Raise (GraphQLError "Product name is required.")).
Proof.
  apply (create_product_rejects_blank_name plain_price_column "   " "19.99"
           (Some 5) seed_store).
  reflexivity.
Defined.

(** X6. A product that [create_product] reports as created is valid: its
    name is the trimmed input and is not empty, its price and stock are what
    the validation returned (a positive price, a stock that is not
    negative), and the store has gained exactly one product row, with the
    same key, name and stock, and nothing else has changed. *)
Theorem create_product_creates_valid_product
  (product_insert : string -> PyDecimal -> Z -> Store -> Decimal + string)
  (name price : string) (stock : option Z) (st st' : Store)
  (r : CreateProduct) :
  run (create_product product_insert name price stock) st = (st', Ok r) ->
  let p := cp_product r in
  pi_name p = PyStr.strip name
  /\ pi_name p <> ""
  /\ validate_price_and_stock price stock = Ok (pi_price p, pi_stock p)
  /\ le_zero (pi_price p) = Ok false
  /\ 0 <= pi_stock p
  /\ exists stored,
       product_insert (pi_name p) (pi_price p) (pi_stock p) st = inl stored
       /\ st' = insert_product
                  (mkProduct (pi_id p) (pi_name p) stored (pi_stock p)) st.
Proof.
  rewrite create_product_run.
  destruct (validate_price_and_stock price stock) as [[d s]|e] eqn:Hv;
    [|discriminate].
  destruct (PyStr.truthy (PyStr.strip name)) eqn:Hn; [|discriminate].
  cbn [negb].
  destruct (product_insert (PyStr.strip name) d s st) as [stored|m] eqn:Hi;
    [|discriminate].
  intros H. inversion H; subst st' r; clear H. cbn.
  pose proof (validate_price_and_stock_ok_checked price stock d s Hv) as Hp.
  repeat split.
  - intros E. rewrite E in Hn. discriminate.
  - tauto.
  - tauto.
  - exists stored. auto.
Qed.

Lemma create_product_creates_valid_product_witness :
  let p := mkProductInstance 4 "Desk" (Finite (mkDecimal 1999 (-2))) 5 in
  pi_name p = PyStr.strip " Desk "
  /\ pi_name p <> ""
  /\ validate_price_and_stock "19.99" (Some 5) = Ok (pi_price p, pi_stock p)
  /\ le_zero (pi_price p) = Ok false
  /\ 0 <= pi_stock p
  /\ exists stored,
       plain_price_column (pi_name p) (pi_price p) (pi_stock p) seed_store
       = inl stored
       /\ seed_store_with_desk
          = insert_product
              (mkProduct (pi_id p) (pi_name p) stored (pi_stock p)) seed_store.
Proof.
  apply (create_product_creates_valid_product plain_price_column " Desk "
           "19.99" (Some 5) seed_store seed_store_with_desk
           (mkCreateProduct true
              (mkProductInstance 4 "Desk" (Finite (mkDecimal 1999 (-2))) 5)
              "Product created.")).
  vm_compute. reflexivity.
Defined.

(** X7. A [create_product] call that raises, for any reason -- a
    validation error, the invalid operation of a NaN price, an error of the
    INSERT -- leaves the store as it was; and the validation of price and
    stock comes first: when it fails, its exception is the one raised,
    whatever the name. *)
Theorem create_product_error_writes_nothing
  (product_insert : string -> PyDecimal -> Z -> Store -> Decimal + string)
  (name price : string) (stock : option Z) (st st' : Store) (e : exn) :
  run (create_product product_insert name price stock) st = (st', Raise e) ->
  st' = st
  /\ forall e', validate_price_and_stock price stock = Raise e' -> e = e'.
Proof.
  rewrite create_product_run.
  destruct (validate_price_and_stock price stock) as [[d s]|e0].
  - destruct (negb (PyStr.truthy (PyStr.strip name))).
    + intros H. inversion H. split; [reflexivity|discriminate].
    + destruct (product_insert _ _ _ st); [discriminate|].
      intros H. inversion H. split; [reflexivity|discriminate].
  - intros H. inversion H. split; [reflexivity|].
    intros e' He. now inversion He.
Qed.

Lemma create_product_error_writes_nothing_witness :
  seed_store = seed_store
  /\ forall e', validate_price_and_stock "0" (Some (-1)) = Raise e' ->
       GraphQLError "Price must be positive." = e'.
Proof.
  apply (create_product_error_writes_nothing plain_price_column "" "0"
           (Some (-1)) seed_store seed_store
           (GraphQLError "Price must be positive.")).
  vm_compute. reflexivity.
Defined.

(** ** Customer rows *)

Lemma rstrip_cons (c : ascii) (r : string) :
  PyStr.rstrip (String c r)
  = match PyStr.rstrip r with
    | EmptyString =>
        if PyStr.is_space c then EmptyString else String c EmptyString
    | r' => String c r'
    end.
Proof. reflexivity. Qed.

Lemma rstrip_idempotent (s : string) :
  PyStr.rstrip (PyStr.rstrip s) = PyStr.rstrip s.
Proof.
  induction s as [|c r IH]; [reflexivity|].
  rewrite (rstrip_cons c r). destruct (PyStr.rstrip r) as [|c' r'] eqn:Hr.
  - destruct (PyStr.is_space c) eqn:Hc; [reflexivity|].
    rewrite rstrip_cons. cbn [PyStr.rstrip]. now rewrite Hc.
  - rewrite rstrip_cons. now rewrite IH.
Qed.

Lemma rstrip_head (c : ascii) (r : string) :
  PyStr.is_space c = false ->
  exists r', PyStr.rstrip (String c r) = String c r'.
Proof.
  intros Hc. cbn [PyStr.rstrip]. destruct (PyStr.rstrip r).
  - rewrite Hc. eauto.
  - eauto.
Qed.

Lemma lstrip_head (s : string) :
  PyStr.lstrip s = ""
  \/ exists c r, PyStr.lstrip s = String c r /\ PyStr.is_space c = false.
Proof.
  induction s as [|c r IH]; [now left|].
  cbn [PyStr.lstrip]. destruct (PyStr.is_space c) eqn:Hc; [assumption|].
  right. eauto.
Qed.

(** Trimming twice is trimming once. *)
Lemma strip_idempotent (s : string) :
  PyStr.strip (PyStr.strip s) = PyStr.strip s.
Proof.
  unfold PyStr.strip. destruct (lstrip_head s) as [->|[c [r [-> Hc]]]].
  - reflexivity.
  - destruct (rstrip_head c r Hc) as [r' Hr]. rewrite Hr.
    cbn [PyStr.lstrip]. rewrite Hc, <- Hr. apply rstrip_idempotent.
Qed.

(** A phone that passed [validate_phone] is stored empty or well formed. *)
Lemma validate_phone_stored (phone : option string) (c c' : Connection)
  (u : unit) :
  validate_phone phone c = (c', Ok u) ->
  negb (PyStr.truthy (PyStr.or_empty phone))
  || PhoneRe.matches (PyStr.or_empty phone) = true.
Proof.
  unfold validate_phone. destruct phone as [p|]; [|reflexivity].
  simpl PyStr.or_empty. destruct (PyStr.truthy p); [|reflexivity].
  destruct (PhoneRe.matches p); [reflexivity|discriminate].
Qed.

Lemma row_ok_built (name e : string) (phone : option string) (k : Z)
  (c c' : Connection) (u : unit) :
  validate_phone phone c = (c', Ok u) ->
  row_ok (mkCustomer k (PyStr.strip name) (PyStr.strip e)
            (PyStr.or_empty phone)) = true.
Proof.
  intros Hp. unfold row_ok. cbn [c_name c_email c_phone].
  rewrite !strip_idempotent, !String.eqb_refl.
  now rewrite (validate_phone_stored phone c c' u Hp).
Qed.

Lemma rows_ok_insert (x : Customer) (st : Store) :
  rows_ok st = true -> row_ok x = true -> rows_ok (insert_customer x st) = true.
Proof.
  unfold rows_ok. simpl. intros Hs Hx. rewrite forallb_app, Hs. simpl.
  now rewrite Hx.
Qed.

Section RowProperties.

Variable fault : fault_model.

Lemma bulk_item_ok_phone (ci : CustomerInput) (conn c1 : Connection)
  (obj : Customer) :
  needs_rollback conn = false ->
  bulk_item fault (Some ci) conn = (c1, Ok obj) ->
  validate_phone (ci_phone ci) conn = (conn, Ok tt).
Proof.
  intros Hn. cbn [bulk_item].
  destruct (negb (PyStr.truthy (ci_name ci)) || negb (PyStr.truthy (ci_email ci)));
    [discriminate|].
  unfold bind at 1. unfold validate_email_unique.
  unfold bind at 1. unfold query. rewrite Hn.
  destruct (email_exists (ci_email ci) (db conn)); [discriminate|].
  unfold ret at 1. unfold bind at 1.
  destruct (validate_phone (ci_phone ci) conn) as [c0 [[]|e]] eqn:Hp;
    [|discriminate].
  apply validate_phone_conn in Hp. now subst c0.
Qed.

(** A run of the loop that returns has appended to the customer table
    exactly the rows it reports as created, each of them well formed, and
    has touched no other table. *)
Lemma bulk_loop_rows (cs : list (option CustomerInput)) :
  forall idx cr er conn c' cr2 er2,
    needs_rollback conn = false ->
    bulk_loop fault idx cs cr er conn = (c', Ok (cr2, er2)) ->
    exists cr',
      cr2 = cr ++ cr'
      /\ customers (db c') = customers (db conn) ++ cr'
      /\ forallb row_ok cr' = true
      /\ products (db c') = products (db conn)
      /\ orders (db c') = orders (db conn)
      /\ order_products (db c') = order_products (db conn).
Proof.
  induction cs as [|c rest IH]; intros idx cr er conn c' cr2 er2 Hn.
  - simpl. unfold ret. intros H. inversion H; subst.
    exists []. rewrite !app_nil_r. repeat split.
  - pose proof (bulk_item_cases fault c conn Hn) as Hc.
    destruct (bulk_loop_turn fault c conn Hn)
      as [[obj [_ [Hn1 [Hi Hs]]]]|[[e [_ Hs]]|[_ [_ [_ Hs]]]]];
      rewrite Hs.
    + intros Hrun. rewrite Hi in Hc. destruct Hc as [ci [-> [_ [Hobj _]]]].
      pose proof (bulk_item_ok_phone ci conn _ obj Hn Hi) as Hp.
      destruct (IH _ _ _ _ _ _ _ Hn1 Hrun)
        as [cr' [-> [Hrows [Hok [Hp' [Ho Hl]]]]]].
      exists (obj :: cr'). cbn [db set_db] in *. simpl in Hrows, Hp', Ho, Hl.
      rewrite <- !app_assoc in *. simpl in *.
      repeat split; try assumption.
      rewrite Hok, andb_true_r. rewrite Hobj.
      exact (row_ok_built _ _ _ _ _ _ _ Hp).
    + intros Hrun. exact (IH _ _ _ _ _ _ _ Hn Hrun).
    + discriminate.
Qed.

End RowProperties.

(** X11. [create_customer] keeps the customer table well formed: when
    every stored name and email is trimmed and every stored phone is empty
    or in one of the two formats, the same holds after a successful call,
    which adds exactly the customer it returns. *)
Theorem create_customer_keeps_rows_ok (fault : fault_model)
  (name e : string) (phone : option string) (st st' : Store)
  (r : CreateCustomer) :
  rows_ok st = true ->
  run (create_customer fault name e phone) st = (st', Ok r) ->
  rows_ok st' = true
  /\ customers st' = customers st ++ [cc_customer r]
  /\ products st' = products st /\ orders st' = orders st
  /\ order_products st' = order_products st.
Proof.
  intros Hok. rewrite create_customer_run.
  destruct (email_exists e st); [discriminate|].
  destruct (validate_phone phone (connect st)) as [c0 [u|y]] eqn:Hp;
    [|discriminate].
  destruct (fault _ st); [discriminate|].
  intros H. inversion H; subst st' r; clear H. cbn.
  repeat split.
  apply rows_ok_insert; [assumption|].
  exact (row_ok_built _ _ _ _ _ _ _ Hp).
Qed.

Lemma create_customer_keeps_rows_ok_witness :
  rows_ok seed_store_with_carol = true
  /\ customers seed_store_with_carol
     = customers seed_store ++ [mkCustomer 3 "Carol" "carol@example.com" ""]
  /\ products seed_store_with_carol = products seed_store
  /\ orders seed_store_with_carol = orders seed_store
  /\ order_products seed_store_with_carol = order_products seed_store.
Proof.
  apply (create_customer_keeps_rows_ok no_fault " Carol " "carol@example.com "
           None seed_store seed_store_with_carol
           (mkCreateCustomer true "Customer created."
              (mkCustomer 3 "Carol" "carol@example.com" ""))).
  - vm_compute. reflexivity.
  - vm_compute. reflexivity.
Defined.

(** X12. [bulk_create_customers] keeps the customer table well formed:
    when every stored name and email is trimmed and every stored phone is
    empty or in one of the two formats, the same holds after every call
    that returns. *)
Theorem bulk_create_customers_keeps_rows_ok (fault : fault_model)
  (cs : list (option CustomerInput)) (st st' : Store)
  (r : BulkCreateCustomers) :
  rows_ok st = true ->
  run (bulk_create_customers fault cs) st = (st', Ok r) ->
  rows_ok st' = true.
Proof.
  intros Hok. rewrite bulk_create_customers_run.
  destruct (bulk_loop fault 0 cs [] [] _) as [c' [[cr er]|e]] eqn:Hrun;
    [|discriminate].
  rewrite (bulk_loop_ok_unmarked fault cs 0%nat [] []
             (mkConnection st true false) c' (cr, er) eq_refl Hrun).
  intros H. inversion H; subst st' r; clear H.
  destruct (bulk_loop_rows fault cs 0%nat [] [] (mkConnection st true false)
              c' cr er eq_refl Hrun)
    as [cr' [_ [Hrows [Hnew _]]]].
  unfold rows_ok. rewrite Hrows, forallb_app. cbn [db].
  unfold rows_ok in Hok. now rewrite Hok, Hnew.
Qed.

Lemma bulk_create_customers_keeps_rows_ok_witness :
  rows_ok (mkStore [mkCustomer 1 "A" "a@x.com" ""] [] [] []) = true.
Proof.
  apply (bulk_create_customers_keeps_rows_ok no_fault partial_batch
           empty_store (mkStore [mkCustomer 1 "A" "a@x.com" ""] [] [] [])
           (mkBulkCreateCustomers
              [mkCustomer 1 "A" "a@x.com" ""]
              [mkBulkError 1 (Some "b@x.com") "Both name and email are required.";
               mkBulkError 2 (Some "a@x.com") "Email already exists."])).
  - reflexivity.
  - vm_compute. reflexivity.
Defined.



(** X14. The bulk mutation of a single element whose name and email are
    not empty agrees with [create_customer] on the same input: the same row
    is created and the same store results; a validation error of the single
    call is the message of the one error entry, and nothing is written; a
    storage error of the single call is where they part, the bulk call
    raising instead of reporting it. *)
Theorem bulk_singleton_agrees_with_create_customer (fault : fault_model)
  (ci : CustomerInput) (st : Store) :
  PyStr.truthy (ci_name ci) = true ->
  PyStr.truthy (ci_email ci) = true ->
  run (bulk_create_customers fault [Some ci]) st
  = match run (create_customer fault (ci_name ci) (ci_email ci) (ci_phone ci))
            st with
    | (st', Ok p) => (st', Ok (mkBulkCreateCustomers [cc_customer p] []))
    | (_, Raise (GraphQLError m)) =>
        (st, Ok (mkBulkCreateCustomers []
                   [mkBulkError 0 (Some (ci_email ci)) m]))
    | (_, Raise (Exception m)) =>
        (st, Raise (Exception BROKEN_TRANSACTION_MSG))
    end.
Proof.
  intros Hn He.
  rewrite bulk_create_customers_run, create_customer_run.
  rewrite (bulk_loop_step fault 0 (Some ci) [] [] []
             (mkConnection st true false) eq_refl).
  cbn [bulk_item]. rewrite Hn, He. cbn [negb orb].
  unfold validate_email_unique, customer_save, write, validate_phone.
  unfold bind, query. step_conn.
  destruct (email_exists (ci_email ci) st); [reflexivity|].
  unfold ret at 1. step_conn.
  destruct (ci_phone ci) as [p|].
  - destruct (PyStr.truthy p && negb (PhoneRe.matches p)); unfold raise, ret;
      step_conn; [reflexivity|].
    destruct (fault _ st); reflexivity.
  - unfold ret. step_conn. destruct (fault _ st); reflexivity.
Qed.

Lemma bulk_singleton_agrees_with_create_customer_witness :
  run (bulk_create_customers no_fault
         [Some (mkCustomerInput "Dan" "ALICE@example.com" None)]) seed_store
  = (seed_store,
     Ok (mkBulkCreateCustomers []
           [mkBulkError 0 (Some "ALICE@example.com") "Email already exists."])).
Proof.
  apply (bulk_singleton_agrees_with_create_customer no_fault
           (mkCustomerInput "Dan" "ALICE@example.com" None) seed_store).
  - reflexivity.
  - reflexivity.
Defined.

(** ** Error entries *)

Section EntryProperties.

Variable fault : fault_model.




End EntryProperties.



(** ** Orders, further *)

Lemma int_all_cons (i : option string) (ids : list (option string))
  (pks : list Z) :
  int_all (i :: ids) = Some pks -> exists k q, pks = k :: q.
Proof.
  destruct i as [s|]; simpl; [|discriminate].
  destruct (PyStr.int s) as [k|]; [|discriminate].
  destruct (int_all ids) as [q|]; [|discriminate].
  intros H. inversion H. eauto.
Qed.

Lemma forallb_mem_app (l extra : list Z) (k : Z) :
  mem k l = true -> mem k (l ++ extra) = true.
Proof.
  rewrite !mem_In. intros H. apply in_or_app. now left.
Qed.

Section OrderFurther.

Variable fault : fault_model.

(** A successful [create_order] had at least one product to link. *)
Lemma create_order_ok_products (cid : string) (ids : list (option string))
  (od : option Z) (now : Z) (st st' : Store) (r : CreateOrder) :
  run (create_order fault cid ids od now) st = (st', Ok r) ->
  exists cust pks,
    In cust (customers st)
    /\ products_in pks st <> []
    /\ co_order r = mkOrder (next_id (map o_id (orders st))) (c_id cust)
                      (order_date_or od now)
                      (Dec.sum (map p_price (products_in pks st)))
    /\ st' = set_links (o_id (co_order r)) (map p_id (products_in pks st))
               (insert_order (co_order r) st).
Proof.
  intros Hok.
  assert (Hne : ids <> []).
  { intros ->. rewrite create_order_run in Hok. discriminate. }
  apply create_order_ok_inv in Hok.
  destruct Hok as [cust [pks [Hp [Hc [Hm [Ho Hst]]]]]].
  exists cust, pks. repeat split; try assumption.
  - unfold customer_by_pk in Hc. apply find_some in Hc. tauto.
  - destruct ids as [|i ids']; [contradiction|].
    destruct (int_all_cons i ids' pks Hp) as [k [q ->]].
    assert (Hk : In k (map p_id (products st))).
    { destruct (in_dec Z.eq_dec k (map p_id (products st))) as [H|H];
        [assumption|].
      exfalso.
      assert (Hin : In k (missing_ids (k :: q) (products_in (k :: q) st)))
        by (apply missing_ids_In; split; [now left|assumption]).
      rewrite Hm in Hin. contradiction. }
    assert (Hin : In k (map p_id (products_in (k :: q) st)))
      by (apply products_in_ids; split; [now left|assumption]).
    intros E. rewrite E in Hin. contradiction.
Qed.

End OrderFurther.

(** X16. An order that [create_order] reports as created is linked to at
    least one product, belongs to a customer of the store, and carries the
    date given or else the reading of the clock; the call has added this one
    order row and has changed neither the customers nor the products. *)
Theorem create_order_adds_one_linked_order (fault : fault_model)
  (cid : string) (ids : list (option string)) (od : option Z) (now : Z)
  (st st' : Store) (r : CreateOrder) :
  run (create_order fault cid ids od now) st = (st', Ok r) ->
  linked_products (o_id (co_order r)) st' <> []
  /\ (exists cust, In cust (customers st)
                   /\ o_customer (co_order r) = c_id cust)
  /\ o_order_date (co_order r) = match od with Some d => d | None => now end
  /\ orders st' = orders st ++ [co_order r]
  /\ customers st' = customers st
  /\ products st' = products st.
Proof.
  intros Hok. apply create_order_ok_products in Hok.
  destruct Hok as [cust [pks [Hc [Hne [Ho ->]]]]].
  rewrite linked_products_set_links. rewrite Ho. cbn.
  repeat split; try assumption. exists cust. auto.
Qed.

Lemma create_order_adds_one_linked_order_witness :
  linked_products (o_id laptop_phone_order) seed_store_with_order <> []
  /\ (exists cust, In cust (customers seed_store)
                   /\ o_customer laptop_phone_order = c_id cust)
  /\ o_order_date laptop_phone_order = 0
  /\ orders seed_store_with_order = orders seed_store ++ [laptop_phone_order]
  /\ customers seed_store_with_order = customers seed_store
  /\ products seed_store_with_order = products seed_store.
Proof.
  apply (create_order_adds_one_linked_order no_fault "1" [Some "1"; Some "2"]
           None 0 seed_store seed_store_with_order
           (mkCreateOrder true laptop_phone_order "Order created.")).
  vm_compute. reflexivity.
Defined.

(** X17. [create_order] keeps referential integrity: when the customer of
    every order exists and every link joins an existing order to an existing
    product, the same holds after a successful call. *)
Theorem create_order_keeps_refs_ok (fault : fault_model)
  (cid : string) (ids : list (option string)) (od : option Z) (now : Z)
  (st st' : Store) (r : CreateOrder) :
  refs_ok st = true ->
  run (create_order fault cid ids od now) st = (st', Ok r) ->
  refs_ok st' = true.
Proof.
  intros Hrefs Hok. apply create_order_ok_products in Hok.
  destruct Hok as [cust [pks [Hc [_ [Ho ->]]]]].
  unfold refs_ok in *. apply andb_true_iff in Hrefs.
  destruct Hrefs as [Hord Hlnk].
  rewrite forallb_forall in Hord, Hlnk.
  unfold set_links, insert_order.
  cbn [orders customers products order_products].
  apply andb_true_iff. split; apply forallb_forall.
  - intros o Hin. apply in_app_or in Hin. destruct Hin as [Hin|[<-|[]]].
    + now apply Hord.
    + rewrite Ho. cbn [o_customer]. apply mem_In. now apply in_map.
  - intros l Hin. apply in_app_or in Hin.
    rewrite map_app. destruct Hin as [Hin|Hin].
    + apply filter_In in Hin. destruct Hin as [Hin _].
      specialize (Hlnk l Hin). apply andb_true_iff in Hlnk.
      destruct Hlnk as [H1 H2]. rewrite H2, andb_true_r.
      now apply forallb_mem_app.
    + apply in_map_iff in Hin. destruct Hin as [k [<- Hk]]. cbn [fst snd].
      apply nodup_In in Hk. apply (products_in_ids pks st) in Hk.
      apply andb_true_iff. split; apply mem_In.
      * apply in_or_app. right. now left.
      * tauto.
Qed.

Lemma create_order_keeps_refs_ok_witness :
  refs_ok seed_store_with_order = true.
Proof.
  apply (create_order_keeps_refs_ok no_fault "1" [Some "1"; Some "2"]
           None 0 seed_store seed_store_with_order
           (mkCreateOrder true laptop_phone_order "Order created.")).
  - reflexivity.
  - vm_compute. reflexivity.
Defined.

Lemma total_units_cents (l : list Decimal) :
  (forall d, In d l -> exp d = -2) ->
  Dec.total_units (-2) l = fold_right Z.add 0 (map coef l).
Proof.
  unfold Dec.total_units. induction l as [|d r IH]; intros H; [reflexivity|].
  cbn [map fold_right]. rewrite IH by (intros x Hx; apply H; now right).
  f_equal. unfold Dec.units_at. rewrite (H d (or_introl eq_refl)).
  change (-2 - -2) with 0. rewrite Z.pow_0_r. lia.
Qed.

(** X18. When the prices of the store are amounts with two decimals whose
    coefficients are at most [B] in absolute value, and the number of
    products times [B] stays within the 28 digits of the decimal context,
    the total of a created order has two decimals and its coefficient is the
    integer sum of the coefficients of the prices of its products. *)
Theorem create_order_total_in_cents (fault : fault_model)
  (cid : string) (ids : list (option string)) (od : option Z) (now : Z)
  (st st' : Store) (r : CreateOrder) (B : Z) :
  (forall p, In p (products st) ->
             exp (p_price p) = -2 /\ Z.abs (coef (p_price p)) <= B) ->
  Z.of_nat (List.length (products st)) * B < 10 ^ Dec.prec ->
  run (create_order fault cid ids od now) st = (st', Ok r) ->
  o_total_amount (co_order r)
  = mkDecimal
      (fold_right Z.add 0
         (map (fun p => coef (p_price p))
            (linked_products (o_id (co_order r)) st')))
      (-2).
Proof.
  intros Hps Hb Hok. apply create_order_ok_inv in Hok.
  destruct Hok as [cust [pks [_ [_ [_ [Ho ->]]]]]].
  rewrite linked_products_set_links, Ho. cbn [o_total_amount].
  set (found := products_in pks st).
  assert (Hsub : forall p, In p found -> In p (products st)).
  { intros p Hp. unfold found, products_in in Hp.
    apply filter_In in Hp. tauto. }
  assert (Hlen : (List.length found <= List.length (products st))%nat).
  { unfold found, products_in. apply filter_length_le. }
  assert (Hprices : forall d, In d (map p_price found) ->
                              exp d = -2 /\ Z.abs (coef d) <= B).
  { intros d Hd. apply in_map_iff in Hd. destruct Hd as [p [<- Hp]].
    apply Hps. now apply Hsub. }
  assert (Hbound : Z.of_nat (List.length (map p_price found)) * B
                   < 10 ^ Dec.prec).
  { rewrite length_map. destruct found as [|p q] eqn:Hf.
    - simpl. reflexivity.
    - assert (0 <= B).
      { destruct (Hps p (Hsub p (or_introl eq_refl))) as [_ Hc]. lia. }
      nia. }
  destruct (DecFacts.cents_within_precision (map p_price found) B
              Hprices Hbound) as [Hscale Hwithin].
  rewrite (DecFacts.sum_exact _ Hwithin), Hscale.
  rewrite total_units_cents by (intros d Hd; now apply Hprices).
  now rewrite map_map.
Qed.

Lemma create_order_total_in_cents_witness :
  o_total_amount laptop_phone_order
  = mkDecimal
      (fold_right Z.add 0
         (map (fun p => coef (p_price p))
            (linked_products (o_id laptop_phone_order) seed_store_with_order)))
      (-2).
Proof.
  apply (create_order_total_in_cents no_fault "1" [Some "1"; Some "2"]
           None 0 seed_store seed_store_with_order
           (mkCreateOrder true laptop_phone_order "Order created.") 99999).
  - intros p Hp. simpl in Hp.
    destruct Hp as [<-|[<-|[<-|[]]]]; simpl; split; lia.
  - vm_compute. reflexivity.
  - vm_compute. reflexivity.
Defined.

Lemma next_id_gt (ids : list Z) (k : Z) : In k ids -> k < next_id ids.
Proof.
  unfold next_id. induction ids as [|x r IH]; cbn [fold_right In];
    [contradiction|].
  intros [->|H]; [lia|]. specialize (IH H). lia.
Qed.

(** X19. On a store with referential integrity a successful
    [create_order] gives the new order a key that no order had, leaves the
    links of all other orders as they are, and appends one link per distinct
    product requested and found. *)
Theorem create_order_keeps_other_links (fault : fault_model)
  (cid : string) (ids : list (option string)) (od : option Z) (now : Z)
  (st st' : Store) (r : CreateOrder) :
  refs_ok st = true ->
  run (create_order fault cid ids od now) st = (st', Ok r) ->
  ~ In (o_id (co_order r)) (map o_id (orders st))
  /\ order_products st'
     = order_products st
       ++ map (pair (o_id (co_order r)))
            (nodup Z.eq_dec
               (map p_id (linked_products (o_id (co_order r)) st'))).
Proof.
  intros Hrefs Hok. apply create_order_ok_inv in Hok.
  destruct Hok as [cust [pks [_ [_ [_ [Ho ->]]]]]].
  rewrite linked_products_set_links.
  assert (Hfresh : ~ In (o_id (co_order r)) (map o_id (orders st))).
  { rewrite Ho. cbn [o_id]. intros Hin. apply next_id_gt in Hin. lia. }
  split; [assumption|].
  unfold set_links, insert_order. cbn [order_products]. f_equal.
  unfold refs_ok in Hrefs. apply andb_true_iff in Hrefs.
  destruct Hrefs as [_ Hlnk]. rewrite forallb_forall in Hlnk.
  induction (order_products st) as [|l rest IH]; [reflexivity|].
  cbn [filter].
  assert (Hl : (fst l =? o_id (co_order r)) = false).
  { apply Z.eqb_neq. intros E.
    specialize (Hlnk l (or_introl eq_refl)). apply andb_true_iff in Hlnk.
    destruct Hlnk as [H1 _]. apply mem_In in H1. rewrite E in H1.
    contradiction. }
  rewrite Hl. cbn [negb]. f_equal. apply IH.
  intros x Hx. apply Hlnk. now right.
Qed.

Lemma create_order_keeps_other_links_witness :
  ~ In (o_id laptop_phone_order) (map o_id (orders seed_store))
  /\ order_products seed_store_with_order
     = order_products seed_store
       ++ map (pair (o_id laptop_phone_order))
            (nodup Z.eq_dec
               (map p_id (linked_products (o_id laptop_phone_order)
                            seed_store_with_order))).
Proof.
  apply (create_order_keeps_other_links no_fault "1" [Some "1"; Some "2"]
           None 0 seed_store seed_store_with_order
           (mkCreateOrder true laptop_phone_order "Order created.")).
  - reflexivity.
  - vm_compute. reflexivity.
Defined.

(** ** Instances *)

Lemma create_customer_error_writes_nothing_witness :
  seed_store = seed_store.
Proof.
  apply (create_customer_error_writes_nothing (locked_on_save "Eve")
           "Eve" "eve@example.com" None seed_store seed_store
           (Exception "database is locked")).
  vm_compute. reflexivity.
Defined.

Lemma create_customer_case_variant_rejected_witness :
  run (create_customer no_fault "Al" "ALICE@Example.COM" None) seed_store
  = (seed_store, Raise (GraphQLError "Email already exists.")).
Proof.
  apply (create_customer_case_variant_rejected no_fault "Al"
           "ALICE@Example.COM" None seed_store
           (mkCustomer 1 "Alice" "alice@example.com" "+1234567890")).
  - simpl. tauto.
  - reflexivity.
Defined.


Lemma create_customer_accepts_blank_name_witness :
  exists c,
    c_name c = "" /\
    run (create_customer no_fault "   " "carol@example.com" None) seed_store
    = (insert_customer c seed_store,
       Ok (mkCreateCustomer true "Customer created." c)).
Proof.
  apply (create_customer_accepts_blank_name no_fault "   "
           "carol@example.com" None seed_store).
  - reflexivity.
  - reflexivity.
  - reflexivity.
  - reflexivity.
Defined.

Lemma bulk_later_duplicate_rejected_witness :
  In (mkCustomer 1 "A" "a@x.com" "") [mkCustomer 1 "A" "a@x.com" ""]
  /\ In (mkBulkError 2 (Some "a@x.com") "Email already exists.")
       [mkBulkError 1 (Some "b@x.com") "Both name and email are required.";
        mkBulkError 2 (Some "a@x.com") "Email already exists."].
Proof.
  apply (bulk_later_duplicate_rejected no_fault [] [input "" "b@x.com"] []
           (mkCustomerInput "A" "a@x.com" None)
           (mkCustomerInput "C" "a@x.com" None)
           empty_store (mkStore [mkCustomer 1 "A" "a@x.com" ""] [] [] [])
           (mkConnection empty_store true false)
           (mkConnection (mkStore [mkCustomer 1 "A" "a@x.com" ""] [] [] [])
              true false)
           [] [] (mkCustomer 1 "A" "a@x.com" "")
           (mkBulkCreateCustomers
              [mkCustomer 1 "A" "a@x.com" ""]
              [mkBulkError 1 (Some "b@x.com") "Both name and email are required.";
               mkBulkError 2 (Some "a@x.com") "Email already exists."])).
  - reflexivity.
  - vm_compute. reflexivity.
  - reflexivity.
  - reflexivity.
  - reflexivity.
  - vm_compute. reflexivity.
Defined.


Lemma bulk_create_customers_isolates_unmarked_failures_witness :
  filter (fun b => (index b =? 1)%nat)
    [mkBulkError 1 None NULL_ELEMENT_MSG;
     mkBulkError 2 (Some "b@x.com")
       "Invalid phone format. Use +1234567890 or 123-456-7890."]
  = [mkBulkError 1 None NULL_ELEMENT_MSG].
Proof.
  apply (bulk_create_customers_isolates_unmarked_failures no_fault
           [input "A" "a@x.com"]
           [Some (mkCustomerInput "B" "b@x.com" (Some "12345"));
            input "C" "c@x.com"]
           None empty_store
           (mkStore [mkCustomer 1 "A" "a@x.com" ""; mkCustomer 2 "C" "c@x.com" ""]
              [] [] [])
           (mkConnection (mkStore [mkCustomer 1 "A" "a@x.com" ""] [] [] [])
              true false)
           [mkCustomer 1 "A" "a@x.com" ""] []
           (Exception "'NoneType' object has no attribute 'name'")
           (mkBulkCreateCustomers
              [mkCustomer 1 "A" "a@x.com" ""; mkCustomer 2 "C" "c@x.com" ""]
              [mkBulkError 1 None NULL_ELEMENT_MSG;
               mkBulkError 2 (Some "b@x.com")
                 "Invalid phone format. Use +1234567890 or 123-456-7890."])).
  - vm_compute. reflexivity.
  - reflexivity.
  - vm_compute. reflexivity.
Defined.

Lemma bulk_create_customers_rejects_on_storage_fault_witness :
  run (bulk_create_customers (locked_on_save "B") three_batch) empty_store
  = (empty_store, Raise (Exception BROKEN_TRANSACTION_MSG)).
Proof.
  apply (bulk_create_customers_rejects_on_storage_fault (locked_on_save "B")
           [input "A" "a@x.com"] [input "C" "c@x.com"] (input "B" "b@x.com")
           empty_store
           (mkConnection (mkStore [mkCustomer 1 "A" "a@x.com" ""] [] [] [])
              true false)
           (mkConnection (mkStore [mkCustomer 1 "A" "a@x.com" ""] [] [] [])
              true true)
           (Exception "database is locked")
           ([mkCustomer 1 "A" "a@x.com" ""], [])).
  - vm_compute. reflexivity.
  - vm_compute. reflexivity.
  - reflexivity.
Defined.
